(** * dso-audio-metadata-remover: a shallow embedding of [main.py]

    The program is one function, [remove_metadata], and its command-line
    driver [main].  Everything it does to a file goes through the mutagen
    library, which is not part of the repository: the library is an
    interface here ([Mutagen]), the function is written once over that
    interface, in a state-and-exception monad, and the properties are proved
    for every implementation of the interface.  A small dictionary-backed
    implementation ([Ref]) shows that the contracts assumed of the library
    can be met and lets the function run on concrete disks. *)

From Stdlib Require Import Ascii String.
From stdpp Require Import base option list strings gmap.

Local Open Scope string_scope.
Local Open Scope list_scope.

(** ** Python strings *)

(** [str.lower] on the ASCII letters.  Python lowercases by Unicode rules;
    no character outside ASCII lowercases to one of the characters of
    [.mp3], [.flac] or [.wav], so the suffix tests below see the same
    answer on the UTF-8 bytes of a path. *)
Definition lower_ascii (c : ascii) : ascii :=
  let n := nat_of_ascii c in
  if (65 <=? n)%nat && (n <=? 90)%nat then ascii_of_nat (n + 32) else c.

Fixpoint lower (s : string) : string :=
  match s with
  | EmptyString => EmptyString
  | String c s' => String (lower_ascii c) (lower s')
  end.

(** [s.endswith(suffix)] *)
Definition endswith (s suffix : string) : bool :=
  let n := String.length s in
  let m := String.length suffix in
  (m <=? n)%nat && String.eqb (substring (n - m) m s) suffix.

(** ** Python exceptions *)

(** The classes the program's [except] clauses name.  A value of [exn] is an
    instance of [Exception]: it carries the classes of its method resolution
    order below [Exception] and what [str(e)] prints. *)
Inductive pyclass : Type :=
  | Exception
  | ID3NoHeaderError
  | KeyError
  | FileNotFoundError
  | ValueError
  | OtherClass (name : string).

#[global] Instance pyclass_eq_dec : EqDecision pyclass.
Proof. solve_decision. Defined.

Record exn : Type := mkExn { exn_mro : list pyclass; exn_str : string }.

(** [isinstance(e, c)], the test an [except c] clause makes. *)
Definition isinstance (e : exn) (c : pyclass) : bool :=
  match c with
  | Exception => true
  | _ => bool_decide (c ∈ exn_mro e)
  end.

Inductive outcome (A : Type) : Type :=
  | Return (a : A)
  | Raise (e : exn).
Arguments Return {A} a.
Arguments Raise {A} e.

(** What a call recorded in the trace raised, if anything. *)
Definition raised {A} (r : outcome A) : option exn :=
  match r with
  | Return _ => None
  | Raise e => Some e
  end.

Inductive level : Type := INFO | WARNING | ERROR.

#[global] Instance level_eq_dec : EqDecision level.
Proof. solve_decision. Defined.

(** ** The mutagen interface *)

(** The operations of mutagen that [main.py] calls.  Constructors read the
    disk and return an object or raise; [keys] and [del audio[tag]] work on
    the object in memory only; [save] and [ID3.delete] are the two calls that
    write to the disk.  A call that raises may still have changed the object
    or the disk it was given, so both return the new state with the
    outcome. *)
Class Mutagen : Type := {
  File : Type;
  Audio : Type;
  ID3Obj : Type;
  MP3_load : string → gmap string File → outcome Audio;
  FLAC_load : string → gmap string File → outcome Audio;
  WAVE_load : string → gmap string File → outcome Audio;
  ID3_load : string → gmap string File → outcome ID3Obj;
  keys : Audio → list string;
  delitem : string → Audio → outcome unit * Audio;
  save : Audio → string → gmap string File → outcome unit * gmap string File;
  ID3_delete : ID3Obj → gmap string File → outcome unit * gmap string File;
}.

(** The one call of [logging] that can fail: [logging.FileHandler(path)]
    opens the log file at once and raises when it cannot.  Whether it can is
    for the environment to say. *)
Class Logging : Type := {
  FileHandler_open : string → outcome unit;
}.

(** The command line as [argparse] hands it to [main]. *)
Record Args : Type := mkArgs {
  input_file : string;
  output_file : option string;
  keep : option (list string);
  log_file : option string;
}.

(** Truthiness of an optional list ([if keep_tags:]) and of an optional
    string ([if args.log_file:]): [None] and the empty value are false. *)
Definition truthy_list {A} (l : option (list A)) : bool :=
  match l with
  | Some (_ :: _) => true
  | _ => false
  end.

Definition truthy_str (s : option string) : bool :=
  match s with
  | Some (String _ _) => true
  | _ => false
  end.

Section Program.
Context `{Mutagen} `{Logging}.

(** A call into the library, with its arguments and what it raised. *)
Inductive call : Type :=
  | CallOpen (ctor path : string) (r : option exn)
  | CallDel (tag : string) (r : option exn)
  | CallSave (audio : Audio) (path : string) (r : option exn)
  | CallID3Delete (tags : ID3Obj) (r : option exn).

(** The state a run works on: the disk, the records handed to [logging],
    the lines printed, the file handlers added to the root logger, and the
    trace of library calls (ghost state: nothing reads it). *)
Record World : Type := mkWorld {
  disk : gmap string File;
  log : list (level * string);
  stdout : list string;
  handlers : list string;
  calls : list call;
}.

Definition M (A : Type) : Type := World → outcome A * World.

#[global] Instance M_ret : MRet M := λ A a w, (Return a, w).

#[global] Instance M_bind : MBind M := λ A B f m w,
  match m w with
  | (Return a, w') => f a w'
  | (Raise e, w') => (Raise e, w')
  end.

Definition raise {A} (e : exn) : M A := λ w, (Raise e, w).

(** [try: body  except c1 [as e]: h1  except c2 [as e]: h2 ...]: the first
    clause whose class the exception is an instance of handles it; with none
    it propagates. *)
Fixpoint select_handler {A} (e : exn) (hs : list (pyclass * (exn → M A)))
  : option (exn → M A) :=
  match hs with
  | [] => None
  | (c, h) :: hs' => if isinstance e c then Some h else select_handler e hs'
  end.

Definition try_except {A} (body : M A) (hs : list (pyclass * (exn → M A))) : M A :=
  λ w, match body w with
       | (Return a, w') => (Return a, w')
       | (Raise e, w') =>
           match select_handler e hs with
           | Some h => h e w'
           | None => (Raise e, w')
           end
       end.

Definition record_call (c : call) (w : World) : World :=
  mkWorld (disk w) (log w) (stdout w) (handlers w) (calls w ++ [c]).

Definition record_log (l : level) (msg : string) (w : World) : World :=
  mkWorld (disk w) (log w ++ [(l, msg)]) (stdout w) (handlers w) (calls w).

Definition logging (l : level) (msg : string) : M unit :=
  λ w, (Return tt, record_log l msg w).

Definition print (line : string) : M unit :=
  λ w, (Return tt, mkWorld (disk w) (log w) (stdout w ++ [line]) (handlers w) (calls w)).

(** [logging.FileHandler(path)] (line 136): the handler for the file, or the
    exception of the failed open.  The log file is kept apart from [disk],
    which holds the files the library reads and writes: what a run sends to
    the log file is [log], for the handlers in [handlers]. *)
Definition FileHandler (path : string) : M string :=
  λ w, match FileHandler_open path with
       | Return _ => (Return path, w)
       | Raise e => (Raise e, w)
       end.

(** [logging.getLogger().addHandler(handler)] (line 140). *)
Definition addHandler (path : string) : M unit :=
  λ w, (Return tt, mkWorld (disk w) (log w) (stdout w) (handlers w ++ [path]) (calls w)).

(** The library calls, lifted to the monad. *)
Definition open {A} (name : string) (ctor : string → gmap string File → outcome A)
    (path : string) : M A :=
  λ w, let r := ctor path (disk w) in (r, record_call (CallOpen name path (raised r)) w).

Definition MP3 : string → M Audio := open "MP3" MP3_load.
Definition FLAC : string → M Audio := open "FLAC" FLAC_load.
Definition WAVE : string → M Audio := open "WAVE" WAVE_load.
Definition ID3 : string → M ID3Obj := open "ID3" ID3_load.

Definition audio_save (audio : Audio) (path : string) : M unit :=
  λ w, let '(r, d) := save audio path (disk w) in
       (r, mkWorld d (log w) (stdout w) (handlers w)
             (calls w ++ [CallSave audio path (raised r)])).

Definition audio_id3_delete (tags : ID3Obj) : M unit :=
  λ w, let '(r, d) := ID3_delete tags (disk w) in
       (r, mkWorld d (log w) (stdout w) (handlers w)
             (calls w ++ [CallID3Delete tags (raised r)])).

(** ** [remove_metadata] *)

(** Lines 61-64 and 76-79: the tags the loop will delete. *)
Definition tags_to_remove (audio : Audio) (keep_tags : option (list string))
  : list string :=
  if truthy_list keep_tags
  then filter (λ tag, tag ∉ default [] keep_tags) (keys audio)
  else keys audio.

(** Lines 66-73 and 81-88: the delete loop, the same text in the MP3 and the
    FLAC branch.  [audio] is the one object the loop mutates; it is passed
    from iteration to iteration. *)
Fixpoint delete_loop (input_file : string) (tags : list string) (audio : Audio)
  : M Audio :=
  match tags with
  | [] => mret audio
  | tag :: rest =>
      λ w,
      let '(r, audio') := delitem tag audio in
      let w := record_call (CallDel tag (raised r)) w in
      match r with
      | Return _ => delete_loop input_file rest audio' w
      | Raise e =>
          if isinstance e KeyError then
            (logging WARNING
               ("Tag '" +:+ tag +:+ "' not found in " +:+ input_file +:+ ", skipping.") ;;
             delete_loop input_file rest audio') w
          else
            (logging ERROR
               ("Error deleting tag '" +:+ tag +:+ "' from " +:+ input_file +:+ ": "
                +:+ exn_str e) ;;
             raise e) w
      end
  end.

Definition unsupported_msg : string :=
  "Unsupported file format. Supported formats: MP3, FLAC, WAV".

(** Lines 38-53: the constructor chosen by the suffix.  [None] stands for
    the [return] of line 44. *)
Definition load_audio (input_file : string) : M (option (Audio * string)) :=
  if endswith (lower input_file) ".mp3" then
    try_except (audio ← MP3 input_file; mret (Some (audio, "mp3")))
      [(ID3NoHeaderError, λ _,
          logging WARNING
            ("No ID3 header found in " +:+ input_file
             +:+ ".  Skipping metadata removal.") ;;
          mret None)]
  else if endswith (lower input_file) ".flac" then
    audio ← FLAC input_file; mret (Some (audio, "flac"))
  else if endswith (lower input_file) ".wav" then
    audio ← WAVE input_file; mret (Some (audio, "wav"))
  else
    raise (mkExn [ValueError] unsupported_msg).

(** Lines 59-104: the removal for the loaded file type. *)
Definition strip (input_file file_type : string) (audio : Audio)
    (keep_tags : option (list string)) : M Audio :=
  if String.eqb file_type "mp3" then
    delete_loop input_file (tags_to_remove audio keep_tags) audio
  else if String.eqb file_type "flac" then
    delete_loop input_file (tags_to_remove audio keep_tags) audio
  else if String.eqb file_type "wav" then
    try_except
      (audio_id3 ← ID3 input_file;
       audio_id3_delete audio_id3 ;;
       logging INFO ("ID3 tags removed from " +:+ input_file))
      [(ID3NoHeaderError, λ _,
          logging INFO ("No ID3 tags found in " +:+ input_file +:+ "."));
       (Exception, λ e,
          logging ERROR
            ("Error while removing ID3 tags from " +:+ input_file +:+ ": "
             +:+ exn_str e) ;;
          raise e)] ;;
    mret audio
  else mret audio.

(** Lines 106-116: the save. *)
Definition persist (input_file output_file file_type : string) (audio : Audio)
  : M unit :=
  if negb (String.eqb file_type "wav") then
    try_except
      (audio_save audio output_file ;;
       logging INFO
         ("Metadata removed from " +:+ input_file +:+ " and saved to " +:+ output_file))
      [(Exception, λ e,
          logging ERROR ("Error saving file " +:+ output_file +:+ ": " +:+ exn_str e) ;;
          raise e)]
  else
    logging INFO ("ID3 metadata removed from " +:+ input_file +:+ ".").

Definition remove_metadata (input_file : string) (output_file : option string)
    (keep_tags : option (list string)) : M unit :=
  try_except
    (loaded ← load_audio input_file;
     match loaded with
     | None => mret tt
     | Some (audio, file_type) =>
         let output_file := default input_file output_file in
         audio ← strip input_file file_type audio keep_tags;
         persist input_file output_file file_type audio
     end)
    [(FileNotFoundError, λ e,
        logging ERROR ("File not found: " +:+ input_file) ;; raise e);
     (ValueError, λ e,
        logging ERROR (exn_str e) ;; raise e);
     (Exception, λ e,
        logging ERROR ("An unexpected error occurred: " +:+ exn_str e) ;; raise e)].

(** ** [main] *)

(** Lines 128-152, from the parsed arguments on; the result is the exit code
    of the process.  The log file handler is made before the [try]: an
    exception there is not caught, the interpreter prints the traceback on
    the error stream and the process ends with status 1, without a call of
    [remove_metadata] and without a line on standard output. *)
Definition main (args : Args) : World → Z * World :=
  λ w,
  let setup : M unit :=
    if truthy_str (log_file args)
    then file_handler ← FileHandler (default "" (log_file args));
         addHandler file_handler
    else mret tt in
  match setup w with
  | (Raise _, w0) => (1%Z, w0)
  | (Return _, w0) =>
      let run :=
        (if truthy_list (keep args)
         then remove_metadata (input_file args) (output_file args) (keep args)
         else remove_metadata (input_file args) (output_file args) None) ;;
        print "Metadata removal complete." in
      match run w0 with
      | (Return _, w') => (0%Z, w')
      | (Raise e, w') => (1%Z, snd (print ("Error: " +:+ exn_str e) w'))
      end
  end.

End Program.

(** ** The format classifier of the specification *)

Inductive FormatKind : Type := KindMP3 | KindFLAC | KindWAV | Unsupported.

(** Section 4.1 of the specification: the suffixes [.mp3], [.flac], [.wav],
    matched case-insensitively, in that priority. *)
Definition classify (path : string) : FormatKind :=
  if endswith (lower path) ".mp3" then KindMP3
  else if endswith (lower path) ".flac" then KindFLAC
  else if endswith (lower path) ".wav" then KindWAV
  else Unsupported.

(** ** The vocabulary of the properties *)



Section Vocabulary.
Context `{Mutagen} `{Logging}.



(** The record the outer [try] of [remove_metadata] logs before it raises
    the exception again (lines 118-126). *)
Definition outer_msg (input_file : string) (e : exn) : string :=
  if isinstance e FileNotFoundError then "File not found: " +:+ input_file
  else if isinstance e ValueError then exn_str e
  else "An unexpected error occurred: " +:+ exn_str e.

Definition reraised {A} (input_file : string) (p : outcome A * World)
  : outcome A * World :=
  match p with
  | (Return a, w) => (Return a, w)
  | (Raise e, w) => (Raise e, record_log ERROR (outer_msg input_file e) w)
  end.

(** The constructor the classifier selects. *)
Definition ctor_name (input_file : string) : string :=
  match classify input_file with
  | KindMP3 => "MP3"
  | KindFLAC => "FLAC"
  | KindWAV => "WAVE"
  | Unsupported => ""
  end.

(** An MP3 or FLAC file whose constructor returned the container [audio]. *)
Definition tagged_file (input_file : string) (d : gmap string File)
    (audio : Audio) : Prop :=
  (classify input_file = KindMP3 ∧ MP3_load input_file d = Return audio) ∨
  (classify input_file = KindFLAC ∧ FLAC_load input_file d = Return audio).

(** The calls of a trace by kind. *)
Definition is_del (c : call) : bool :=
  match c with CallDel _ _ => true | _ => false end.

Definition is_write (c : call) : bool :=
  match c with CallSave _ _ _ | CallID3Delete _ _ => true | _ => false end.

(** A deletion that raised something other than a [KeyError]. *)
Definition fatal (c : call) : bool :=
  match c with
  | CallDel _ (Some e) => negb (isinstance e KeyError)
  | _ => false
  end.

Definition saves_to (target : string) (c : call) : Prop :=
  match c with CallSave _ p _ => p = target | _ => True end.

Definition del_error (input_file tag : string) (e : exn) : level * string :=
  (ERROR, "Error deleting tag '" +:+ tag +:+ "' from " +:+ input_file +:+ ": "
          +:+ exn_str e).

Definition del_warning (input_file tag : string) : level * string :=
  (WARNING, "Tag '" +:+ tag +:+ "' not found in " +:+ input_file +:+ ", skipping.").

(** A constructor that raises (anything but the missing header of an MP3)
    ends the run: the outer handler logs and raises again. *)
Definition open_failed (input_file : string) (d : gmap string File) (e : exn)
  : Prop :=
  (classify input_file = KindMP3 ∧ MP3_load input_file d = Raise e
     ∧ isinstance e ID3NoHeaderError = false) ∨
  (classify input_file = KindFLAC ∧ FLAC_load input_file d = Raise e) ∨
  (classify input_file = KindWAV ∧ WAVE_load input_file d = Raise e).

(** What [main.py] expects of the container of an MP3 or FLAC file: its keys
    are unique, and deleting a key it has succeeds and removes that key and
    no other. *)
Definition unique_keys : Prop := ∀ a : Audio, NoDup (keys a).

Definition deletes_present : Prop :=
  ∀ (a : Audio) (k : string), k ∈ keys a →
    ∃ a', delitem k a = (Return tt, a') ∧
          ∀ k', k' ∈ keys a' ↔ k' ∈ keys a ∧ k' ≠ k.

(** [save] writes the file it is given and no other. *)
Definition save_frame : Prop :=
  ∀ (a : Audio) (p q : string) (d : gmap string File),
    q ≠ p → (save a p d).2 !! q = d !! q.

(** After [ID3.delete] the file has no ID3 block left to load. *)
Definition id3_delete_removes : Prop :=
  ∀ (p : string) (d d' : gmap string File) (t : ID3Obj),
    ID3_load p d = Return t → ID3_delete t d = (Return tt, d') →
    ∃ e, ID3_load p d' = Raise e ∧ isinstance e ID3NoHeaderError = true.




(** What one deletion raised does not stop the loop. *)
Definition recoverable (x : option exn) : Prop :=
  match x with
  | None => True
  | Some e => isinstance e KeyError = true
  end.

(** The tag a deletion was asked to remove, and the deletions of a trace. *)
Definition del_tag (c : call) : option string :=
  match c with CallDel t _ => Some t | _ => None end.

Definition del_tags (evs : list call) : list string := omap del_tag evs.

(** The disk a write call leaves, from the disk it was made on. *)
Definition write_effect (c : call) (d : gmap string File) : gmap string File :=
  match c with
  | CallSave a p _ => (save a p d).2
  | CallID3Delete t _ => (ID3_delete t d).2
  | CallOpen _ _ _ | CallDel _ _ => d
  end.

(** The records of the WAV branch. *)
Definition wav_done (input_file : string) : level * string :=
  (INFO, "ID3 metadata removed from " +:+ input_file +:+ ".").

Definition wav_absent (input_file : string) : level * string :=
  (INFO, "No ID3 tags found in " +:+ input_file +:+ ".").

Definition wav_removed (input_file : string) : level * string :=
  (INFO, "ID3 tags removed from " +:+ input_file).

Definition wav_error (input_file : string) (e : exn) : level * string :=
  (ERROR, "Error while removing ID3 tags from " +:+ input_file +:+ ": "
          +:+ exn_str e).

Definition save_done (input_file target : string) : level * string :=
  (INFO, "Metadata removed from " +:+ input_file +:+ " and saved to " +:+ target).

Definition save_error (target : string) (e : exn) : level * string :=
  (ERROR, "Error saving file " +:+ target +:+ ": " +:+ exn_str e).

Definition noheader_warning (input_file : string) : level * string :=
  (WARNING, "No ID3 header found in " +:+ input_file
            +:+ ".  Skipping metadata removal.").

(** A world after library calls [evs] and log records [recs], on disk [d]. *)
Definition extended (w : World) (d : gmap string File) (evs : list call)
    (recs : list (level * string)) : World :=
  mkWorld d (log w ++ recs) (stdout w) (handlers w) (calls w ++ evs).

(** The paths through [remove_metadata]: each one with the outcome and the
    world it ends in. *)
Inductive run_path (input_file : string) (output_file : option string)
    (keep_tags : option (list string)) (w : World)
  : outcome unit → World → Prop :=
  | path_unsupported :
      classify input_file = Unsupported →
      run_path input_file output_file keep_tags w
        (Raise (mkExn [ValueError] unsupported_msg))
        (extended w (disk w) [] [(ERROR, unsupported_msg)])
  | path_noheader e :
      classify input_file = KindMP3 →
      MP3_load input_file (disk w) = Raise e →
      isinstance e ID3NoHeaderError = true →
      run_path input_file output_file keep_tags w (Return tt)
        (extended w (disk w) [CallOpen "MP3" input_file (Some e)]
           [noheader_warning input_file])
  | path_open_failed e :
      open_failed input_file (disk w) e →
      run_path input_file output_file keep_tags w (Raise e)
        (extended w (disk w) [CallOpen (ctor_name input_file) input_file (Some e)]
           [(ERROR, outer_msg input_file e)])
  | path_del_failed audio e w1 :
      tagged_file input_file (disk w) audio →
      delete_loop input_file (tags_to_remove audio keep_tags) audio
        (record_call (CallOpen (ctor_name input_file) input_file None) w)
        = (Raise e, w1) →
      run_path input_file output_file keep_tags w (Raise e)
        (extended w1 (disk w1) [] [(ERROR, outer_msg input_file e)])
  | path_saved audio audio' w1 d :
      tagged_file input_file (disk w) audio →
      delete_loop input_file (tags_to_remove audio keep_tags) audio
        (record_call (CallOpen (ctor_name input_file) input_file None) w)
        = (Return audio', w1) →
      save audio' (default input_file output_file) (disk w1) = (Return tt, d) →
      run_path input_file output_file keep_tags w (Return tt)
        (extended w1 d [CallSave audio' (default input_file output_file) None]
           [save_done input_file (default input_file output_file)])
  | path_save_failed audio audio' w1 e d :
      tagged_file input_file (disk w) audio →
      delete_loop input_file (tags_to_remove audio keep_tags) audio
        (record_call (CallOpen (ctor_name input_file) input_file None) w)
        = (Return audio', w1) →
      save audio' (default input_file output_file) (disk w1) = (Raise e, d) →
      run_path input_file output_file keep_tags w (Raise e)
        (extended w1 d [CallSave audio' (default input_file output_file) (Some e)]
           [save_error (default input_file output_file) e;
            (ERROR, outer_msg input_file e)])
  | path_wav_absent audio e :
      classify input_file = KindWAV →
      WAVE_load input_file (disk w) = Return audio →
      ID3_load input_file (disk w) = Raise e →
      isinstance e ID3NoHeaderError = true →
      run_path input_file output_file keep_tags w (Return tt)
        (extended w (disk w)
           [CallOpen "WAVE" input_file None; CallOpen "ID3" input_file (Some e)]
           [wav_absent input_file; wav_done input_file])
  | path_wav_id3_failed audio e :
      classify input_file = KindWAV →
      WAVE_load input_file (disk w) = Return audio →
      ID3_load input_file (disk w) = Raise e →
      isinstance e ID3NoHeaderError = false →
      run_path input_file output_file keep_tags w (Raise e)
        (extended w (disk w)
           [CallOpen "WAVE" input_file None; CallOpen "ID3" input_file (Some e)]
           [wav_error input_file e; (ERROR, outer_msg input_file e)])
  | path_wav_deleted audio t d :
      classify input_file = KindWAV →
      WAVE_load input_file (disk w) = Return audio →
      ID3_load input_file (disk w) = Return t →
      ID3_delete t (disk w) = (Return tt, d) →
      run_path input_file output_file keep_tags w (Return tt)
        (extended w d
           [CallOpen "WAVE" input_file None; CallOpen "ID3" input_file None;
            CallID3Delete t None]
           [wav_removed input_file; wav_done input_file])
  | path_wav_delete_absent audio t e d :
      classify input_file = KindWAV →
      WAVE_load input_file (disk w) = Return audio →
      ID3_load input_file (disk w) = Return t →
      ID3_delete t (disk w) = (Raise e, d) →
      isinstance e ID3NoHeaderError = true →
      run_path input_file output_file keep_tags w (Return tt)
        (extended w d
           [CallOpen "WAVE" input_file None; CallOpen "ID3" input_file None;
            CallID3Delete t (Some e)]
           [wav_absent input_file; wav_done input_file])
  | path_wav_delete_failed audio t e d :
      classify input_file = KindWAV →
      WAVE_load input_file (disk w) = Return audio →
      ID3_load input_file (disk w) = Return t →
      ID3_delete t (disk w) = (Raise e, d) →
      isinstance e ID3NoHeaderError = false →
      run_path input_file output_file keep_tags w (Raise e)
        (extended w d
           [CallOpen "WAVE" input_file None; CallOpen "ID3" input_file None;
            CallID3Delete t (Some e)]
           [wav_error input_file e; (ERROR, outer_msg input_file e)]).

End Vocabulary.

(** ** A dictionary-backed implementation of the interface *)

(** A file is an optional tag block and the audio stream; an audio object is
    the tag dictionary read from it.  [frozen] lists tag names whose deletion
    the container refuses with an error that is not a [KeyError]; with
    [frozen = []] the container is a plain dictionary.  An MP3 or an [ID3]
    object cannot be made of a file without a tag block; FLAC and WAVE read
    such a file as an empty dictionary. *)
Module Ref.

Record file : Type := mkFile {
  f_tags : option (gmap string string);
  f_stream : string;
}.

Record audio : Type := mkAudio {
  a_tags : gmap string string;
  a_stream : string;
}.

Definition no_file (path : string) : exn :=
  mkExn [FileNotFoundError; OtherClass "OSError"] ("No such file: " +:+ path).

Definition no_header (path : string) : exn :=
  mkExn [ID3NoHeaderError; ValueError] (path +:+ " doesn't start with an ID3 tag").

Definition read_tagged (strict : bool) (path : string) (d : gmap string file)
  : outcome audio :=
  match d !! path with
  | None => Raise (no_file path)
  | Some f =>
      match f_tags f with
      | Some t => Return (mkAudio t (f_stream f))
      | None => if strict then Raise (no_header path)
                else Return (mkAudio ∅ (f_stream f))
      end
  end.

Definition read_id3 (path : string) (d : gmap string file) : outcome string :=
  match d !! path with
  | None => Raise (no_file path)
  | Some f =>
      match f_tags f with
      | Some _ => Return path
      | None => Raise (no_header path)
      end
  end.

Definition del (frozen : list string) (tag : string) (a : audio)
  : outcome unit * audio :=
  match a_tags a !! tag with
  | None => (Raise (mkExn [KeyError] tag), a)
  | Some _ =>
      if bool_decide (tag ∈ frozen)
      then (Raise (mkExn [OtherClass "PermissionError"] ("read-only tag " +:+ tag)), a)
      else (Return tt, mkAudio (delete tag (a_tags a)) (a_stream a))
  end.

Definition write (a : audio) (path : string) (d : gmap string file)
  : outcome unit * gmap string file :=
  (Return tt, <[path := mkFile (Some (a_tags a)) (a_stream a)]> d).

Definition drop_id3 (path : string) (d : gmap string file)
  : outcome unit * gmap string file :=
  (Return tt, alter (λ f, mkFile None (f_stream f)) path d).

Definition mutagen (frozen : list string) : Mutagen := {|
  File := file;
  Audio := audio;
  ID3Obj := string;
  MP3_load := read_tagged true;
  FLAC_load := read_tagged false;
  WAVE_load := read_tagged false;
  ID3_load := read_id3;
  keys := λ a, (map_to_list (a_tags a)).*1;
  delitem := del frozen;
  save := write;
  ID3_delete := drop_id3;
|}.

(** The plain dictionary. *)
Definition dict : Mutagen := mutagen [].

(** An environment in which the log files in [refused] cannot be opened. *)
Definition logging (refused : list string) : Logging := {|
  FileHandler_open := λ path,
    if bool_decide (path ∈ refused)
    then Raise (mkExn [FileNotFoundError; OtherClass "OSError"]
                  ("No such file or directory: " +:+ path))
    else Return tt;
|}.

(** The environment of the examples: there is no directory [/no/such/dir],
    so a log file there cannot be opened; every other log file can. *)
Definition no_dir : string := "/no/such/dir/run.log".

Definition env : Logging := logging [no_dir].

(** A fresh world on the disk [d]: nothing logged, printed or called yet. *)
Definition world0 (frozen : list string) (d : gmap string file)
  : @World (mutagen frozen) :=
  @mkWorld (mutagen frozen) d [] [] [] [].

(** The disks of the examples. *)
Definition song_disk : gmap string file :=
  {[ "song.mp3" :=
       mkFile (Some {[ "title" := "Blue"; "artist" := "Ann";
                       "album" := "Sky"; "year" := "1999" ]}) "mpeg" ]}.

Definition track_disk : gmap string file :=
  {[ "track.flac" := mkFile (Some {[ "comment" := "ripped at home" ]}) "flac" ]}.

Definition memo_disk : gmap string file :=
  {[ "memo.wav" := mkFile (Some {[ "TIT2" := "memo" ]}) "riff" ]}.

Definition bare_disk : gmap string file :=
  {[ "bare.mp3" := mkFile None "mpeg"; "bare.wav" := mkFile None "riff" ]}.

Definition title_disk : gmap string file :=
  {[ "song.mp3" := mkFile (Some {[ "title" := "Blue" ]}) "mpeg" ]}.

(** The containers and worlds of the examples. *)

Definition kept_run : outcome unit * @World dict :=
  @remove_metadata dict "song.mp3" None (Some ["title"; "artist"])
    (world0 [] song_disk).

Definition song_audio : @Audio dict :=
  mkAudio {[ "title" := "Blue"; "artist" := "Ann";
                 "album" := "Sky"; "year" := "1999" ]} "mpeg".

Definition track_audio : @Audio dict :=
  mkAudio {[ "comment" := "ripped at home" ]} "flac".

Definition memo_audio : @Audio dict := mkAudio {[ "TIT2" := "memo" ]} "riff".

Definition song_world : @World dict := world0 [] song_disk.
Definition track_world : @World dict := world0 [] track_disk.
Definition memo_world : @World dict := world0 [] memo_disk.
Definition bare_world : @World dict := world0 [] bare_disk.

Definition read_only : exn :=
  mkExn [OtherClass "PermissionError"] ("read-only tag " +:+ "title").

Definition title_world : @World (mutagen ["title"]) :=
  world0 ["title"] title_disk.

Definition aborted : outcome unit * @World (mutagen ["title"]) :=
  @remove_metadata (mutagen ["title"]) "song.mp3" (Some "out.mp3") None
    title_world.

End Ref.

(** ** A library with faults *)

(** The dictionary library with three faults: [save] refuses the paths in
    [locked]; the [ID3] constructor returns an object for any file there
    is, and [delete] raises the missing-header error when the file has no
    tag block and refuses the paths in [locked]. *)
Module Quirk.

Definition denied (path : string) : exn :=
  mkExn [OtherClass "PermissionError"; OtherClass "OSError"]
    ("Permission denied: " +:+ path).

Definition write (locked : list string) (a : Ref.audio) (path : string)
    (d : gmap string Ref.file) : outcome unit * gmap string Ref.file :=
  if bool_decide (path ∈ locked) then (Raise (denied path), d)
  else Ref.write a path d.

Definition read_id3 (path : string) (d : gmap string Ref.file) : outcome string :=
  match d !! path with
  | None => Raise (Ref.no_file path)
  | Some _ => if bool_decide (path = "broken.wav") then Raise (denied path)
              else Return path
  end.

Definition drop_id3 (locked : list string) (path : string)
    (d : gmap string Ref.file) : outcome unit * gmap string Ref.file :=
  match d !! path with
  | None => (Raise (Ref.no_file path), d)
  | Some f =>
      match Ref.f_tags f with
      | None => (Raise (Ref.no_header path), d)
      | Some _ => if bool_decide (path ∈ locked) then (Raise (denied path), d)
                  else Ref.drop_id3 path d
      end
  end.

Definition mutagen (locked : list string) : Mutagen := {|
  File := Ref.file;
  Audio := Ref.audio;
  ID3Obj := string;
  MP3_load := Ref.read_tagged true;
  FLAC_load := Ref.read_tagged false;
  WAVE_load := Ref.read_tagged false;
  ID3_load := read_id3;
  keys := λ a, (map_to_list (Ref.a_tags a)).*1;
  delitem := Ref.del [];
  save := write locked;
  ID3_delete := drop_id3 locked;
|}.

Definition world0 (locked : list string) (d : gmap string Ref.file)
  : @World (mutagen locked) :=
  @mkWorld (mutagen locked) d [] [] [] [].

Definition wav_disk : gmap string Ref.file :=
  {[ "memo.wav" := Ref.mkFile (Some {[ "TIT2" := "memo" ]}) "riff";
     "bare.wav" := Ref.mkFile None "riff";
     "broken.wav" := Ref.mkFile None "riff" ]}.

(** A world where [song.mp3] cannot be saved, and one where the ID3 block of
    [memo.wav] cannot be deleted. *)
Definition locked_world : @World (mutagen ["song.mp3"]) :=
  world0 ["song.mp3"] Ref.song_disk.

Definition wav_world : @World (mutagen ["memo.wav"]) :=
  world0 ["memo.wav"] wav_disk.

Definition refused_save : outcome unit * @World (mutagen ["song.mp3"]) :=
  @remove_metadata (mutagen ["song.mp3"]) "song.mp3" None None locked_world.

Definition stripped : @Audio (mutagen ["song.mp3"]) := Ref.mkAudio ∅ "mpeg".

End Quirk.

(** ** How a run unfolds *)


(** Closes a goal that differs from [Hp] in how a world is written. *)
Ltac same_world Hp :=
  unfold extended, record_log, record_call in *;
  cbn [disk log stdout handlers calls fst snd] in *;
  rewrite ?app_nil_r, <- ?app_assoc in *;
  cbn [app] in *;
  exact Hp.

(** Unfolds the monad and the lifted library calls of a goal. *)
Ltac run :=
  unfold MP3, FLAC, WAVE, ID3 in *;
  unfold logging, raise, open, audio_save, audio_id3_delete,
    try_except, mbind, M_bind, mret, M_ret in *;
  cbn beta iota zeta in *.

Section Facts.
Context `{Mutagen} `{Logging}.

#[local] Arguments String.append : simpl never.

Lemma outer_try (input_file : string) (body : M unit) (w : World) :
  try_except body
    [(FileNotFoundError, λ e,
        logging ERROR ("File not found: " +:+ input_file) ;; raise e);
     (ValueError, λ e,
        logging ERROR (exn_str e) ;; raise e);
     (Exception, λ e,
        logging ERROR ("An unexpected error occurred: " +:+ exn_str e) ;; raise e)] w
  = reraised input_file (body w).
Proof.
  unfold try_except, reraised, outer_msg.
  destruct (body w) as [[a|e] w1]; [done|].
  cbn [select_handler].
  destruct (isinstance e FileNotFoundError); [done|].
  destruct (isinstance e ValueError); done.
Qed.

Lemma load_audio_dispatch (input_file : string) :
  load_audio input_file =
  match classify input_file with
  | KindMP3 =>
      try_except (audio ← MP3 input_file; mret (Some (audio, "mp3")))
        [(ID3NoHeaderError, λ _,
            logging WARNING
              ("No ID3 header found in " +:+ input_file
               +:+ ".  Skipping metadata removal.") ;;
            mret None)]
  | KindFLAC => audio ← FLAC input_file; mret (Some (audio, "flac"))
  | KindWAV => audio ← WAVE input_file; mret (Some (audio, "wav"))
  | Unsupported => raise (mkExn [ValueError] unsupported_msg)
  end.
Proof.
  unfold load_audio, classify.
  destruct (endswith (lower input_file) ".mp3"); [done|].
  destruct (endswith (lower input_file) ".flac"); [done|].
  destruct (endswith (lower input_file) ".wav"); done.
Qed.

Lemma remove_metadata_unsupported input_file output_file keep_tags w :
  classify input_file = Unsupported →
  remove_metadata input_file output_file keep_tags w =
  (Raise (mkExn [ValueError] unsupported_msg), record_log ERROR unsupported_msg w).
Proof.
  intros Hk. unfold remove_metadata. rewrite outer_try, load_audio_dispatch, Hk.
  reflexivity.
Qed.

Lemma remove_metadata_noheader input_file output_file keep_tags w e :
  classify input_file = KindMP3 →
  MP3_load input_file (disk w) = Raise e →
  isinstance e ID3NoHeaderError = true →
  remove_metadata input_file output_file keep_tags w =
  (Return tt,
   record_log WARNING
     ("No ID3 header found in " +:+ input_file +:+ ".  Skipping metadata removal.")
     (record_call (CallOpen "MP3" input_file (Some e)) w)).
Proof.
  intros Hk Hl He. unfold remove_metadata.
  rewrite outer_try, load_audio_dispatch, Hk. run.
  rewrite Hl. cbn [select_handler]. rewrite He. reflexivity.
Qed.

Lemma remove_metadata_open_failed input_file output_file keep_tags w e :
  open_failed input_file (disk w) e →
  remove_metadata input_file output_file keep_tags w =
  (Raise e,
   record_log ERROR (outer_msg input_file e)
     (record_call (CallOpen (ctor_name input_file) input_file (Some e)) w)).
Proof.
  intros Hf. unfold remove_metadata, ctor_name.
  rewrite outer_try, load_audio_dispatch.
  destruct Hf as [(Hk & Hl & He)|[(Hk & Hl)|(Hk & Hl)]]; rewrite Hk; run;
    rewrite Hl; cbn [select_handler]; rewrite ?He; reflexivity.
Qed.

(** An MP3 or FLAC run with its container: the delete loop, then the save. *)
Lemma remove_metadata_tagged input_file output_file keep_tags w audio :
  tagged_file input_file (disk w) audio →
  remove_metadata input_file output_file keep_tags w =
  reraised input_file
    ((audio' ← delete_loop input_file (tags_to_remove audio keep_tags) audio;
      persist input_file (default input_file output_file) "mp3" audio')
       (record_call (CallOpen (ctor_name input_file) input_file None) w)).
Proof.
  intros Ht. unfold remove_metadata, ctor_name.
  rewrite outer_try, load_audio_dispatch.
  destruct Ht as [(Hk & Hl)|(Hk & Hl)]; rewrite Hk; run; rewrite Hl; reflexivity.
Qed.

Lemma persist_tagged input_file target audio w :
  persist input_file target "mp3" audio w =
  match save audio target (disk w) with
  | (Return _, d) =>
      (Return tt,
       record_log INFO
         ("Metadata removed from " +:+ input_file +:+ " and saved to " +:+ target)
         (mkWorld d (log w) (stdout w) (handlers w)
            (calls w ++ [CallSave audio target None])))
  | (Raise e, d) =>
      (Raise e,
       record_log ERROR ("Error saving file " +:+ target +:+ ": " +:+ exn_str e)
         (mkWorld d (log w) (stdout w) (handlers w)
            (calls w ++ [CallSave audio target (Some e)])))
  end.
Proof.
  unfold persist. cbn [String.eqb Ascii.eqb Bool.eqb negb]. run.
  destruct (save audio target (disk w)) as [[[]|e] d]; reflexivity.
Qed.

(** *** The delete loop, for any container *)

Lemma delete_loop_cons input_file tag rest audio w :
  delete_loop input_file (tag :: rest) audio w =
  let w1 := record_call (CallDel tag (raised (delitem tag audio).1)) w in
  match (delitem tag audio).1 with
  | Return _ => delete_loop input_file rest (delitem tag audio).2 w1
  | Raise e =>
      if isinstance e KeyError
      then delete_loop input_file rest (delitem tag audio).2
             (record_log WARNING (del_warning input_file tag).2 w1)
      else (Raise e, record_log ERROR (del_error input_file tag e).2 w1)
  end.
Proof.
  cbn [delete_loop]. destruct (delitem tag audio) as [[[]|e] a']; cbn [fst snd]; [done|].
  destruct (isinstance e KeyError); reflexivity.
Qed.

Lemma delete_loop_run input_file tags : ∀ audio w r w',
  delete_loop input_file tags audio w = (r, w') →
  disk w' = disk w ∧ stdout w' = stdout w ∧ handlers w' = handlers w ∧
  ∃ evs, calls w' = calls w ++ evs ∧
    Forall (λ c, is_del c = true) evs ∧
    match r with
    | Return _ => Forall (λ c, fatal c = false) evs
    | Raise e =>
        ∃ pre tag, evs = pre ++ [CallDel tag (Some e)] ∧
          isinstance e KeyError = false ∧
          Forall (λ c, fatal c = false) pre ∧
          del_error input_file tag e ∈ log w'
    end.
Proof.
  induction tags as [|tag rest IH]; intros audio w r w' Hrun.
  - inversion Hrun; subst. repeat split; try done.
    exists []. rewrite app_nil_r. by repeat constructor.
  - rewrite delete_loop_cons in Hrun. cbn zeta in Hrun.
    destruct (delitem tag audio) as [[[]|e] a'] eqn:Hd; cbn [fst snd raised] in Hrun.
    + apply IH in Hrun as (Hdisk & Hout & Hh & evs & Hc & Hdel & Hr).
      repeat split; try done.
      exists (CallDel tag None :: evs). split; [|split].
      * rewrite Hc. cbn. by rewrite <- app_assoc.
      * by constructor.
      * destruct r as [a|e].
        -- by constructor.
        -- destruct Hr as (pre & t & -> & He & Hpre & Hlog).
           exists (CallDel tag None :: pre), t. repeat split; try done.
           by constructor.
    + destruct (isinstance e KeyError) eqn:Hk.
      * apply IH in Hrun as (Hdisk & Hout & Hh & evs & Hc & Hdel & Hr).
        repeat split; try done.
        exists (CallDel tag (Some e) :: evs). split; [|split].
        -- rewrite Hc. cbn. by rewrite <- app_assoc.
        -- by constructor.
        -- destruct r as [a|e0].
           ++ constructor; [|done]. unfold fatal. by rewrite Hk.
           ++ destruct Hr as (pre & t & -> & He & Hpre & Hlog).
              exists (CallDel tag (Some e) :: pre), t. repeat split; try done.
              constructor; [|done]. unfold fatal. by rewrite Hk.
      * inversion Hrun; subst. repeat split; try done.
        exists [CallDel tag (Some e)]. split; [done|]. split; [by repeat constructor|].
        exists [], tag. repeat split; try done.
        cbn. apply elem_of_app. right. by apply list_elem_of_singleton.
Qed.

(** *** The WAV path *)

Lemma remove_metadata_wav input_file output_file keep_tags w audio :
  classify input_file = KindWAV →
  WAVE_load input_file (disk w) = Return audio →
  remove_metadata input_file output_file keep_tags w =
  let w0 := record_call (CallOpen "WAVE" input_file None) w in
  let done_msg := "ID3 metadata removed from " +:+ input_file +:+ "." in
  let err_msg e :=
    "Error while removing ID3 tags from " +:+ input_file +:+ ": " +:+ exn_str e in
  match ID3_load input_file (disk w) with
  | Return t =>
      let w1 := record_call (CallOpen "ID3" input_file None) w0 in
      match ID3_delete t (disk w) with
      | (Return _, d) =>
          (Return tt,
           record_log INFO done_msg
             (record_log INFO ("ID3 tags removed from " +:+ input_file)
                (mkWorld d (log w1) (stdout w1) (handlers w1)
                   (calls w1 ++ [CallID3Delete t None]))))
      | (Raise e, d) =>
          let w2 := mkWorld d (log w1) (stdout w1) (handlers w1)
                      (calls w1 ++ [CallID3Delete t (Some e)]) in
          if isinstance e ID3NoHeaderError
          then (Return tt,
                record_log INFO done_msg
                  (record_log INFO ("No ID3 tags found in " +:+ input_file +:+ ".") w2))
          else (Raise e,
                record_log ERROR (outer_msg input_file e)
                  (record_log ERROR (err_msg e) w2))
      end
  | Raise e =>
      let w1 := record_call (CallOpen "ID3" input_file (Some e)) w0 in
      if isinstance e ID3NoHeaderError
      then (Return tt,
            record_log INFO done_msg
              (record_log INFO ("No ID3 tags found in " +:+ input_file +:+ ".") w1))
      else (Raise e,
            record_log ERROR (outer_msg input_file e) (record_log ERROR (err_msg e) w1))
  end.
Proof.
  intros Hk Hl. unfold remove_metadata.
  rewrite outer_try, load_audio_dispatch, Hk. run. rewrite Hl.
  unfold strip, persist. cbn [String.eqb Ascii.eqb Bool.eqb negb]. run.
  cbn [disk record_call].
  destruct (ID3_load input_file (disk w)) as [t|e].
  - destruct (ID3_delete t (disk w)) as [[[]|e] d]; [reflexivity|].
    cbn [select_handler]. destruct (isinstance e ID3NoHeaderError); reflexivity.
  - cbn [select_handler]. destruct (isinstance e ID3NoHeaderError); reflexivity.
Qed.

(** *** Every run *)

Lemma run_cases (input_file : string) (d : gmap string File) :
  classify input_file = Unsupported ∨
  (∃ e, classify input_file = KindMP3 ∧ MP3_load input_file d = Raise e
        ∧ isinstance e ID3NoHeaderError = true) ∨
  (∃ e, open_failed input_file d e) ∨
  (∃ audio, tagged_file input_file d audio) ∨
  (∃ audio, classify input_file = KindWAV ∧ WAVE_load input_file d = Return audio).
Proof.
  unfold open_failed, tagged_file.
  destruct (classify input_file) eqn:Hk.
  - destruct (MP3_load input_file d) as [a|e] eqn:Hl.
    + right; right; right; left. exists a. by left.
    + destruct (isinstance e ID3NoHeaderError) eqn:He.
      * right; left. by exists e.
      * right; right; left. exists e. by left.
  - destruct (FLAC_load input_file d) as [a|e] eqn:Hl.
    + right; right; right; left. exists a. by right.
    + right; right; left. exists e. right; by left.
  - destruct (WAVE_load input_file d) as [a|e] eqn:Hl.
    + right; right; right; right. by exists a.
    + right; right; left. exists e. right; by right.
  - by left.
Qed.

Lemma is_del_not_write c : is_del c = true → is_write c = false.
Proof. by destruct c. Qed.

Lemma is_del_saves_to target c : is_del c = true → saves_to target c.
Proof. by destruct c. Qed.

Lemma Forall_snoc_inv {A} (P : A → Prop) l x : Forall P (l ++ [x]) → P x.
Proof. intros HF. apply Forall_app in HF as [_ HF]. by inversion HF. Qed.

(** The trace of any run: saves go to the output path (the input path when
    none was given), the disk changes only through a write call, and a
    fatal deletion is the last call of the run. *)
Lemma run_trace input_file output_file keep_tags w r w' :
  remove_metadata input_file output_file keep_tags w = (r, w') →
  ∃ evs, calls w' = calls w ++ evs ∧
    Forall (saves_to (default input_file output_file)) evs ∧
    (Forall (λ c, is_write c = false) evs → disk w' = disk w) ∧
    (Forall (λ c, fatal c = false) evs ∨
     ∃ pre tag e, evs = pre ++ [CallDel tag (Some e)] ∧
       isinstance e KeyError = false ∧
       Forall (λ c, fatal c = false) pre ∧
       Forall (λ c, is_write c = false) pre ∧
       r = Raise e ∧ disk w' = disk w ∧
       del_error input_file tag e ∈ log w').
Proof.
  intros Hrun.
  destruct (run_cases input_file (disk w))
    as [Hk|[(e & Hk & Hl & He)|[(e & Hf)|[(a & Ht)|(a & Hk & Hl)]]]].
  - rewrite remove_metadata_unsupported in Hrun by done. inversion Hrun; subst.
    exists []. rewrite app_nil_r. repeat split; try done. by left.
  - rewrite (remove_metadata_noheader _ _ _ _ e) in Hrun by done.
    inversion Hrun; subst. eexists [_]. repeat split; try done.
    + by repeat constructor.
    + left. by repeat constructor.
  - rewrite (remove_metadata_open_failed _ _ _ _ e) in Hrun by done.
    inversion Hrun; subst. eexists [_]. repeat split; try done.
    + by repeat constructor.
    + left. by repeat constructor.
  - rewrite (remove_metadata_tagged _ _ _ _ a) in Hrun by done.
    unfold mbind, M_bind in Hrun.
    destruct (delete_loop _ _ _ _) as [[a'|e] w1] eqn:Hloop;
      apply delete_loop_run in Hloop
        as (Hdisk & Hout & Hh & evs & Hc & Hdel & Hr); cbn [disk calls record_call] in *.
    + rewrite persist_tagged in Hrun.
      assert (∀ x d l,
        let w2 := mkWorld d l (stdout w1) (handlers w1)
                    (calls w1 ++ [CallSave a' (default input_file output_file) x]) in
        ∃ evs0, calls w2 = calls w ++ evs0 ∧
          Forall (saves_to (default input_file output_file)) evs0 ∧
          (Forall (λ c, is_write c = false) evs0 → disk w2 = disk w) ∧
          Forall (λ c, fatal c = false) evs0) as Hgoal.
      { intros x d l. cbn [calls disk].
        exists (CallOpen (ctor_name input_file) input_file None
                  :: evs ++ [CallSave a' (default input_file output_file) x]).
        split; [rewrite Hc; by rewrite <- !app_assoc|].
        split; [constructor; [done|]; apply Forall_app; split;
                 [by eapply Forall_impl; [exact Hdel|apply is_del_saves_to]
                 |by repeat constructor]|].
        split; [intros HF; apply Forall_cons in HF as [_ HF];
                 by apply Forall_snoc_inv in HF|].
        constructor; [done|]. apply Forall_app. split; [done|by repeat constructor]. }
      destruct (save a' _ (disk w1)) as [[[]|e] d]; cbn in Hrun;
        inversion Hrun; subst r w'; unfold record_log;
        cbn [disk log stdout handlers calls];
        [destruct (Hgoal None d []) as (evs0 & ? & ? & ? & ?)
        |destruct (Hgoal (Some e) d []) as (evs0 & ? & ? & ? & ?)];
        exists evs0; repeat split; try done; by left.
    + cbn in Hrun. inversion Hrun; subst; cbn [calls disk log record_log].
      destruct Hr as (pre & tag & -> & He & Hpre & Hlog).
      eexists (_ :: pre ++ [_]). split; [rewrite Hc; by rewrite <- !app_assoc|].
      apply Forall_app in Hdel as [Hdel _].
      split; [constructor; [done|]; apply Forall_app; split;
              [by eapply Forall_impl; [exact Hdel|apply is_del_saves_to]
              |by repeat constructor]|].
      split; [done|].
      right. exists (CallOpen (ctor_name input_file) input_file None :: pre), tag, e.
      repeat split; try done.
      * by constructor.
      * constructor; [done|]. eapply Forall_impl; [exact Hdel|apply is_del_not_write].
      * apply elem_of_app. by left.
  - rewrite (remove_metadata_wav _ _ _ _ a) in Hrun by done. cbn zeta in Hrun.
    destruct (ID3_load input_file (disk w)) as [t|e].
    + destruct (ID3_delete t (disk w)) as [[[]|e] d];
        [|cbn zeta in Hrun; destruct (isinstance e ID3NoHeaderError)];
        inversion Hrun; subst;
        cbn [calls disk record_log record_call];
        eexists [_; _; _]; (split; [by rewrite <- !app_assoc|]);
        (split; [by repeat constructor|]);
        (split; [intros HF; do 2 apply Forall_cons in HF as [_ HF];
                 by apply Forall_cons in HF as [? _]|]);
        left; by repeat constructor.
    + destruct (isinstance e ID3NoHeaderError); inversion Hrun; subst;
        cbn [calls disk record_log record_call];
        eexists [_; _]; (split; [by rewrite <- !app_assoc|]);
        (split; [by repeat constructor|]); (split; [done|]);
        left; by repeat constructor.
Qed.

Lemma fatal_is_last (pre evs1 evs2 : list call) (last c : call) :
  pre ++ [last] = evs1 ++ c :: evs2 →
  Forall (λ c, fatal c = false) pre →
  fatal c = true →
  evs2 = [] ∧ pre = evs1 ∧ last = c.
Proof.
  intros Heq Hpre Hc.
  destruct evs2 as [|z evs2 _] using rev_ind.
  - by apply app_inj_tail in Heq as [-> ->].
  - replace (evs1 ++ c :: evs2 ++ [z]) with ((evs1 ++ c :: evs2) ++ [z]) in Heq
      by (by rewrite <- app_assoc).
    apply app_inj_tail in Heq as [-> _].
    apply Forall_app in Hpre as [_ Hpre]. apply Forall_cons in Hpre as [Hpre _].
    congruence.
Qed.

(** *** Runs over a dictionary *)

Lemma tags_to_remove_NoDup audio keep_tags :
  unique_keys → NoDup (tags_to_remove audio keep_tags).
Proof.
  intros Hu. unfold tags_to_remove.
  destruct (truthy_list keep_tags); [apply NoDup_filter|]; apply Hu.
Qed.

Lemma tags_to_remove_keys audio keep_tags t :
  t ∈ tags_to_remove audio keep_tags → t ∈ keys audio.
Proof.
  unfold tags_to_remove. destruct (truthy_list keep_tags); [|done].
  intros Hin. by apply list_elem_of_filter in Hin as [_ ?].
Qed.

Lemma surviving_keys audio keep_tags t :
  t ∈ keys audio ∧ t ∉ tags_to_remove audio keep_tags ↔
  t ∈ keys audio ∧ t ∈ default [] keep_tags.
Proof.
  unfold tags_to_remove.
  destruct keep_tags as [[|k ks]|]; cbn [truthy_list default].
  - split; [intros [? ?]; done|intros [_ Hin]; by apply not_elem_of_nil in Hin].
  - rewrite list_elem_of_filter. split.
    + intros [Hin Hno]. split; [done|].
      destruct (decide (t ∈ k :: ks)); [done|]. by destruct Hno.
    + intros [Hin Hk]. split; [done|]. intros [Hno _]. by apply Hno.
  - split; [intros [? ?]; done|intros [_ Hin]; by apply not_elem_of_nil in Hin].
Qed.

Lemma delete_loop_dict input_file tags :
  deletes_present →
  ∀ audio w, NoDup tags → (∀ t, t ∈ tags → t ∈ keys audio) →
  ∃ audio',
    delete_loop input_file tags audio w =
      (Return audio',
       mkWorld (disk w) (log w) (stdout w) (handlers w)
         (calls w ++ map (λ t, CallDel t None) tags)) ∧
    ∀ k, k ∈ keys audio' ↔ k ∈ keys audio ∧ k ∉ tags.
Proof.
  intros Hdel. induction tags as [|tag rest IH]; intros audio w Hnd Hin.
  - exists audio. split.
    + cbn. rewrite app_nil_r. by destruct w.
    + intros k. split; [intros ?; split; [done|apply not_elem_of_nil]|by intros [? _]].
  - apply NoDup_cons in Hnd as [Hfresh Hnd].
    destruct (Hdel audio tag) as (a1 & Hd & Hkeys); [apply Hin; by left|].
    destruct (IH a1 (record_call (CallDel tag None) w) Hnd) as (a' & Hrun & Ha').
    { intros t Ht. apply Hkeys. split; [apply Hin; by right|]. by intros ->. }
    exists a'. split.
    + rewrite delete_loop_cons, Hd. cbn [fst snd raised]. cbn zeta. rewrite Hrun.
      cbn [disk log stdout handlers calls record_call map].
      by rewrite <- app_assoc.
    + intros k. rewrite Ha', Hkeys, not_elem_of_cons. tauto.
Qed.

(** An MP3 or FLAC run over a dictionary: every listed tag is deleted, no
    deletion raises, and the container that is saved holds the keys that
    were not listed. *)
Lemma run_dict input_file output_file keep_tags w audio :
  unique_keys → deletes_present →
  tagged_file input_file (disk w) audio →
  ∃ audio',
    (∀ k, k ∈ keys audio' ↔ k ∈ keys audio ∧ k ∈ default [] keep_tags) ∧
    let target := default input_file output_file in
    let trace x :=
      calls w ++ CallOpen (ctor_name input_file) input_file None
        :: map (λ t, CallDel t None) (tags_to_remove audio keep_tags)
        ++ [CallSave audio' target x] in
    remove_metadata input_file output_file keep_tags w =
    match save audio' target (disk w) with
    | (Return _, d) =>
        (Return tt,
         mkWorld d
           (log w ++ [(INFO, "Metadata removed from " +:+ input_file
                             +:+ " and saved to " +:+ target)])
           (stdout w) (handlers w) (trace None))
    | (Raise e, d) =>
        (Raise e,
         mkWorld d
           (log w ++ [(ERROR, "Error saving file " +:+ target +:+ ": " +:+ exn_str e);
                      (ERROR, outer_msg input_file e)])
           (stdout w) (handlers w) (trace (Some e)))
    end.
Proof.
  intros Hu Hdel Ht.
  destruct (delete_loop_dict input_file (tags_to_remove audio keep_tags) Hdel audio
              (record_call (CallOpen (ctor_name input_file) input_file None) w))
    as (a' & Hrun & Ha').
  { by apply tags_to_remove_NoDup. }
  { apply tags_to_remove_keys. }
  exists a'. split.
  - intros k. rewrite Ha'. apply surviving_keys.
  - cbn zeta. rewrite (remove_metadata_tagged _ _ _ _ audio) by done.
    unfold mbind, M_bind. rewrite Hrun, persist_tagged.
    cbn [disk log stdout handlers calls record_call].
    destruct (save a' _ (disk w)) as [[[]|e] d]; unfold reraised, record_log;
      cbn [disk log stdout handlers calls]; rewrite <- ?app_assoc; reflexivity.
Qed.

(** *** [main] *)










End Facts.

(** ** The properties of the specification *)

Section Properties.
Context `{Mutagen} `{Logging}.

#[local] Arguments String.append : simpl never.


(** C4. On a WAV input the keep-list and the output path change nothing.
    When the [ID3] constructor returns a block, the run makes exactly three
    library calls, the last being [delete] on that block, and the final disk
    is the one [delete] left: there is no save.  When the constructor raises
    [ID3NoHeaderError] the run returns normally, on the disk it started
    with.  No WAV run ever calls [save]. *)
Theorem C4_wav_ignores_keep_and_output input_file output_file keep_tags w :
  classify input_file = KindWAV →
  remove_metadata input_file output_file keep_tags w =
    remove_metadata input_file None None w ∧
  (∀ audio t,
     WAVE_load input_file (disk w) = Return audio →
     ID3_load input_file (disk w) = Return t →
     ∃ r w',
       remove_metadata input_file output_file keep_tags w = (r, w') ∧
       disk w' = (ID3_delete t (disk w)).2 ∧
       calls w' = calls w ++
         [CallOpen "WAVE" input_file None; CallOpen "ID3" input_file None;
          CallID3Delete t (raised (ID3_delete t (disk w)).1)] ∧
       ((ID3_delete t (disk w)).1 = Return tt → r = Return tt)) ∧
  (∀ audio e,
     WAVE_load input_file (disk w) = Return audio →
     ID3_load input_file (disk w) = Raise e →
     isinstance e ID3NoHeaderError = true →
     ∃ w',
       remove_metadata input_file output_file keep_tags w = (Return tt, w') ∧
       disk w' = disk w ∧
       calls w' = calls w ++
         [CallOpen "WAVE" input_file None; CallOpen "ID3" input_file (Some e)]) ∧
  (∀ r w' evs,
     remove_metadata input_file output_file keep_tags w = (r, w') →
     calls w' = calls w ++ evs →
     ∀ a p x, CallSave a p x ∉ evs).
Proof.
  intros Hk.
  assert (∀ a, ¬ tagged_file input_file (disk w) a) as Hnt.
  { intros a [[Hk' _]|[Hk' _]]; congruence. }
  split; [|split; [|split]].
  - destruct (run_cases input_file (disk w))
      as [Hu|[(e & Hk' & _)|[(e & Hf)|[(a & Ht)|(a & _ & Hl)]]]]; try congruence.
    + by rewrite !(remove_metadata_open_failed _ _ _ _ e).
    + by destruct (Hnt a).
    + by rewrite !(remove_metadata_wav _ _ _ _ a).
  - intros audio t Hl Hi. rewrite (remove_metadata_wav _ _ _ _ audio) by done.
    cbn zeta. rewrite Hi.
    destruct (ID3_delete t (disk w)) as [[[]|e] d]; cbn [fst snd raised].
    + eexists _, _. split; [reflexivity|]. repeat split; try done.
      cbn. by rewrite <- !app_assoc.
    + destruct (isinstance e ID3NoHeaderError);
        (eexists _, _; split; [reflexivity|]); repeat split; try done;
        cbn; by rewrite <- !app_assoc.
  - intros audio e Hl Hi He. rewrite (remove_metadata_wav _ _ _ _ audio) by done.
    cbn zeta. rewrite Hi, He. eexists. split; [reflexivity|].
    repeat split; try done. cbn. by rewrite <- !app_assoc.
  - intros r w' evs Hrun Hc a p x Hin.
    assert (∀ l, calls w' = calls w ++ l → Forall (λ c, is_del c = false ∧
              ∀ a p x, c ≠ CallSave a p x) l → False) as Hno.
    { intros l Hl HF. rewrite Hc in Hl. apply app_inv_head in Hl as <-.
      rewrite Forall_forall in HF. by destruct (HF _ Hin) as [_ HF']; eapply HF'. }
    destruct (run_cases input_file (disk w))
      as [Hu|[(e & Hk' & _)|[(e & Hf)|[(a0 & Ht)|(a0 & _ & Hl)]]]]; try congruence.
    + rewrite (remove_metadata_open_failed _ _ _ _ e) in Hrun by done.
      inversion Hrun; subst. eapply Hno; [reflexivity|]. by repeat constructor.
    + by destruct (Hnt a0).
    + rewrite (remove_metadata_wav _ _ _ _ a0) in Hrun by done. cbn zeta in Hrun.
      destruct (ID3_load input_file (disk w)) as [t|e].
      * destruct (ID3_delete t (disk w)) as [[[]|e] d];
          [|destruct (isinstance e ID3NoHeaderError)];
          inversion Hrun; subst;
          (eapply Hno; [cbn; by rewrite <- !app_assoc|by repeat constructor]).
      * destruct (isinstance e ID3NoHeaderError); inversion Hrun; subst;
          (eapply Hno; [cbn; by rewrite <- !app_assoc|by repeat constructor]).
Qed.

(** C5. In any run, a deletion that raises something other than a
    [KeyError] is the last library call: nothing follows it (no further
    deletion, no save), no write call precedes it, the run raises that
    exception after logging the error, and the disk is the one the run
    started with. *)
Theorem C5_fatal_deletion_aborts
    input_file output_file keep_tags w r w' evs1 tag e evs2 :
  remove_metadata input_file output_file keep_tags w = (r, w') →
  calls w' = calls w ++ evs1 ++ CallDel tag (Some e) :: evs2 →
  isinstance e KeyError = false →
  evs2 = [] ∧
  Forall (λ c, is_write c = false) evs1 ∧
  r = Raise e ∧
  disk w' = disk w ∧
  del_error input_file tag e ∈ log w'.
Proof.
  intros Hrun Hc He.
  assert (fatal (CallDel tag (Some e)) = true) as Hfatal by (unfold fatal; by rewrite He).
  apply run_trace in Hrun as (evs & Hc' & _ & _ & [Hnone|Hlast]).
  - rewrite Hc in Hc'. apply app_inv_head in Hc' as <-.
    apply Forall_app in Hnone as [_ Hnone]. apply Forall_cons in Hnone as [Hnone _].
    congruence.
  - destruct Hlast as (pre & tag' & e' & -> & He' & Hpre & Hw & -> & Hdisk & Hlog).
    rewrite Hc in Hc'. apply app_inv_head in Hc'. symmetry in Hc'.
    apply fatal_is_last in Hc' as (-> & -> & Heq); [|done|done].
    by inversion Heq; subst.
Qed.


Lemma no_elements {A} (l : list A) : (∀ x, x ∉ l) → l = [].
Proof. destruct l as [|x l]; [done|]. intros Hno. destruct (Hno x). by left. Qed.

(** C1. For an MP3 or FLAC file whose container is a dictionary, the run
    ends with one save, and the container it saves holds exactly the keys of
    the loaded container that are in the keep-list: none when there is no
    keep-list, and never a key the loaded container did not have. *)
Theorem C1_surviving_keys input_file output_file keep_tags w audio :
  unique_keys → deletes_present →
  tagged_file input_file (disk w) audio →
  ∃ audio' r w',
    remove_metadata input_file output_file keep_tags w = (r, w') ∧
    (∃ pre, calls w' = calls w ++ pre ++
              [CallSave audio' (default input_file output_file) (raised r)]
            ∧ Forall (λ c, is_write c = false) pre) ∧
    (∀ k, k ∈ keys audio' ↔ k ∈ keys audio ∧ k ∈ default [] keep_tags) ∧
    (keep_tags = None → keys audio' = []) ∧
    (∀ k, k ∈ keys audio' → k ∈ keys audio).
Proof.
  intros Hu Hdel Ht.
  destruct (run_dict input_file output_file keep_tags w audio Hu Hdel Ht)
    as (a' & Hkeys & Hrun). cbn zeta in Hrun.
  assert (Forall (λ c, is_write c = false)
            (CallOpen (ctor_name input_file) input_file None
               :: map (λ t, CallDel t None) (tags_to_remove audio keep_tags)))
    as Hpre.
  { constructor; [done|]. apply Forall_forall. intros c Hc.
    apply list_elem_of_fmap in Hc as (t & -> & _). done. }
  exists a'. rewrite Hrun.
  destruct (save a' _ (disk w)) as [[[]|e] d]; eexists _, _;
    (split; [reflexivity|]);
    (split; [eexists; split; [cbn [calls raised]; by rewrite app_comm_cons|done]|]);
    (split; [done|]);
    (split; [intros ->; apply no_elements; intros k Hk;
             apply Hkeys in Hk as [_ Hk]; by apply not_elem_of_nil in Hk
            |intros k Hk; by apply Hkeys in Hk as [? _]]).
Qed.

(** C9. In an MP3 or FLAC run over a dictionary every listed tag is deleted
    once and every deletion returns normally: the trace is the constructor,
    one successful [del] per tag of a duplicate-free list, and the save, and
    the run logs no warning. *)
Theorem C9_keyerror_unreachable input_file output_file keep_tags w audio :
  unique_keys → deletes_present →
  tagged_file input_file (disk w) audio →
  NoDup (tags_to_remove audio keep_tags) ∧
  ∃ audio' r w' records,
    remove_metadata input_file output_file keep_tags w = (r, w') ∧
    calls w' = calls w ++
      CallOpen (ctor_name input_file) input_file None
        :: map (λ t, CallDel t None) (tags_to_remove audio keep_tags)
        ++ [CallSave audio' (default input_file output_file) (raised r)] ∧
    log w' = log w ++ records ∧
    Forall (λ rec, rec.1 ≠ WARNING) records.
Proof.
  intros Hu Hdel Ht. split; [by apply tags_to_remove_NoDup|].
  destruct (run_dict input_file output_file keep_tags w audio Hu Hdel Ht)
    as (a' & _ & Hrun). cbn zeta in Hrun.
  exists a'. rewrite Hrun.
  destruct (save a' _ (disk w)) as [[[]|e] d]; eexists _, _, _;
    (split; [reflexivity|]); (split; [done|]); (split; [reflexivity|]);
    by repeat constructor.
Qed.

(** C6. A save of any run goes to the output path when one was given and to
    the input path otherwise.  In the scenario of the specification (input
    [track.flac] with the one tag [comment], output [out.flac], no
    keep-list) the run deletes [comment] and saves an empty container to
    [out.flac]; the disk after the run is the one that save left, and, a
    save writing only the file it names, [track.flac] is what it was. *)
Theorem C6_save_target :
  (∀ input_file output_file keep_tags w r w' evs a p x,
     remove_metadata input_file output_file keep_tags w = (r, w') →
     calls w' = calls w ++ evs →
     CallSave a p x ∈ evs →
     p = default input_file output_file
     ∧ (∀ out, output_file = Some out → p = out)
     ∧ (output_file = None → p = input_file)) ∧
  (deletes_present → save_frame →
   ∀ w audio,
     FLAC_load "track.flac" (disk w) = Return audio →
     keys audio = ["comment"] →
     ∃ audio' r w',
       remove_metadata "track.flac" (Some "out.flac") None w = (r, w') ∧
       keys audio' = [] ∧
       calls w' = calls w ++
         [CallOpen "FLAC" "track.flac" None; CallDel "comment" None;
          CallSave audio' "out.flac" (raised r)] ∧
       disk w' = (save audio' "out.flac" (disk w)).2 ∧
       disk w' !! "track.flac" = disk w !! "track.flac").
Proof.
  split.
  - intros i o k w r w' evs a p x Hrun Hc Hin.
    apply run_trace in Hrun as (evs' & Hc' & Hsave & _).
    rewrite Hc in Hc'. apply app_inv_head in Hc' as <-.
    rewrite Forall_forall in Hsave. specialize (Hsave _ Hin). cbn in Hsave.
    subst p. split; [done|]. split; [by intros out ->|by intros ->].
  - intros Hdel Hframe w audio Hl Hkeys.
    assert (tagged_file "track.flac" (disk w) audio) as Ht by (by right).
    assert (ctor_name "track.flac" = "FLAC") as Hctor by (by vm_compute).
    destruct (delete_loop_dict "track.flac" ["comment"] Hdel audio
                (record_call (CallOpen "FLAC" "track.flac" None) w))
      as (a' & Hrun & Ha').
    { apply NoDup_singleton. }
    { intros t Hin. by rewrite Hkeys. }
    assert (keys a' = []) as Hempty.
    { apply no_elements. intros k Hk. apply Ha' in Hk as [Hk Hno].
      by rewrite Hkeys in Hk. }
    exists a'. rewrite (remove_metadata_tagged _ _ _ _ audio) by done.
    unfold mbind, M_bind, tags_to_remove. cbn [truthy_list].
    change (default "track.flac" (Some "out.flac")) with "out.flac".
    rewrite Hctor, Hkeys, Hrun, persist_tagged.
    cbn [disk log stdout handlers calls record_call].
    pose proof (Hframe a' "out.flac" "track.flac" (disk w)) as Hfr.
    destruct (save a' "out.flac" (disk w)) as [[[]|e] d]; eexists _, _;
      (split; [reflexivity|]); (split; [done|]);
      (split; [cbn; by rewrite <- !app_assoc|]);
      (split; [done|]); by apply Hfr.
Qed.

(** C8. Without a keep-list an MP3 or FLAC run over a dictionary saves a
    container with no keys; a run on an MP3 that has no header leaves the
    disk as it is, and a run on a container that has no keys deletes
    nothing and saves that same container.  On a WAV file the run
    deletes the ID3 block when there is one; when [delete] leaves no block
    to load, as its contract says, a second run finds none and leaves the
    disk as it is. *)
Theorem C8_remove_all_idempotent :
  unique_keys → deletes_present → id3_delete_removes →
  (∀ input_file output_file w audio,
     tagged_file input_file (disk w) audio →
     ∃ audio' r w',
       remove_metadata input_file output_file None w = (r, w') ∧
       keys audio' = [] ∧
       disk w' = (save audio' (default input_file output_file) (disk w)).2 ∧
       ∃ pre, calls w' = calls w ++ pre ++
                [CallSave audio' (default input_file output_file) (raised r)]) ∧
  (∀ input_file output_file w e,
     classify input_file = KindMP3 →
     MP3_load input_file (disk w) = Raise e →
     isinstance e ID3NoHeaderError = true →
     ∃ w', remove_metadata input_file output_file None w = (Return tt, w') ∧
           disk w' = disk w) ∧
  (∀ input_file output_file w audio,
     tagged_file input_file (disk w) audio →
     keys audio = [] →
     ∃ r w',
       remove_metadata input_file output_file None w = (r, w') ∧
       disk w' = (save audio (default input_file output_file) (disk w)).2 ∧
       calls w' = calls w ++
         [CallOpen (ctor_name input_file) input_file None;
          CallSave audio (default input_file output_file) (raised r)]) ∧
  (∀ input_file output_file w audio t d,
     classify input_file = KindWAV →
     WAVE_load input_file (disk w) = Return audio →
     ID3_load input_file (disk w) = Return t →
     ID3_delete t (disk w) = (Return tt, d) →
     ∃ w',
       remove_metadata input_file output_file None w = (Return tt, w') ∧
       disk w' = d ∧
       (∃ e, ID3_load input_file d = Raise e
             ∧ isinstance e ID3NoHeaderError = true) ∧
       ∀ output_file' w2, disk w2 = d →
         disk (remove_metadata input_file output_file' None w2).2 = d ∧
         ∀ audio2, WAVE_load input_file d = Return audio2 →
           (remove_metadata input_file output_file' None w2).1 = Return tt).
Proof.
  intros Hu Hdel Hid3. split; [|split; [|split]].
  - intros i o w audio Ht.
    destruct (run_dict i o None w audio Hu Hdel Ht) as (a' & Hkeys & Hrun).
    cbn zeta in Hrun. exists a'. rewrite Hrun.
    assert (keys a' = []) as Hempty.
    { apply no_elements. intros k Hk. apply Hkeys in Hk as [_ Hk].
      by apply not_elem_of_nil in Hk. }
    destruct (save a' _ (disk w)) as [[[]|e] d]; eexists _, _;
      (split; [reflexivity|]); (split; [done|]); (split; [done|]);
      eexists; cbn [calls raised]; by rewrite app_comm_cons.
  - intros i o w e Hk Hl He. rewrite (remove_metadata_noheader _ _ _ _ e) by done.
    by eexists.
  - intros i o w audio Ht Hkeys.
    rewrite (remove_metadata_tagged _ _ _ _ audio) by done.
    unfold mbind, M_bind, tags_to_remove. cbn [truthy_list].
    rewrite Hkeys. cbn [delete_loop]. unfold mret, M_ret.
    rewrite persist_tagged. cbn [disk log stdout handlers calls record_call].
    destruct (save audio _ (disk w)) as [[[]|e] d]; eexists _, _;
      (split; [reflexivity|]); (split; [done|]);
      cbn; by rewrite <- !app_assoc.
  - intros i o w audio t d Hk Hl Hi Hd.
    destruct (Hid3 _ _ _ _ Hi Hd) as (e & Hi' & He).
    rewrite (remove_metadata_wav _ _ _ _ audio) by done.
    cbn zeta. rewrite Hi, Hd. eexists. split; [reflexivity|].
    split; [done|]. split; [by exists e|].
    intros o' w2 <-.
    destruct (WAVE_load i (disk w2)) as [a2|e2] eqn:Hl2.
    + rewrite (remove_metadata_wav _ _ _ _ a2) by done.
      cbn zeta. rewrite Hi', He. by split.
    + rewrite (remove_metadata_open_failed _ _ _ _ e2)
        by (right; right; done).
      by split.
Qed.

End Properties.

(** ** Every path of a run *)

Section Paths.
Context `{Mutagen}.

#[local] Arguments String.append : simpl never.

Lemma extended_nil w : extended w (disk w) [] [] = w.
Proof. unfold extended. rewrite !app_nil_r. by destruct w. Qed.

Lemma run_paths input_file output_file keep_tags w r w' :
  remove_metadata input_file output_file keep_tags w = (r, w') →
  run_path input_file output_file keep_tags w r w'.
Proof.
  intros Hrun.
  destruct (run_cases input_file (disk w))
    as [Hk|[(e & Hk & Hl & He)|[(e & Hf)|[(a & Ht)|(a & Hk & Hl)]]]].
  - rewrite remove_metadata_unsupported in Hrun by done.
    inversion Hrun; subst.
    pose proof (path_unsupported _ output_file keep_tags w Hk) as Hp.
    by same_world Hp.
  - rewrite (remove_metadata_noheader _ _ _ _ e) in Hrun by done.
    inversion Hrun; subst.
    pose proof (path_noheader _ output_file keep_tags w e Hk Hl He) as Hp.
    by same_world Hp.
  - rewrite (remove_metadata_open_failed _ _ _ _ e) in Hrun by done.
    inversion Hrun; subst.
    pose proof (path_open_failed _ output_file keep_tags w e Hf) as Hp.
    by same_world Hp.
  - rewrite (remove_metadata_tagged _ _ _ _ a) in Hrun by done.
    unfold mbind, M_bind in Hrun.
    destruct (delete_loop _ _ _ _) as [[a'|e] w1] eqn:Hloop.
    + rewrite persist_tagged in Hrun.
      destruct (save a' _ (disk w1)) as [[[]|e] d] eqn:Hs; cbn in Hrun;
        inversion Hrun; subst.
      * pose proof (path_saved _ _ _ _ a a' w1 d Ht Hloop Hs) as Hp.
        by same_world Hp.
      * pose proof (path_save_failed _ _ _ _ a a' w1 e d Ht Hloop Hs) as Hp.
        by same_world Hp.
    + cbn in Hrun. inversion Hrun; subst.
      pose proof (path_del_failed _ output_file _ _ a e w1 Ht Hloop) as Hp.
      by same_world Hp.
  - rewrite (remove_metadata_wav _ _ _ _ a) in Hrun by done. cbn zeta in Hrun.
    destruct (ID3_load input_file (disk w)) as [t|e] eqn:Hi.
    + destruct (ID3_delete t (disk w)) as [[[]|e] d] eqn:Hd.
      * inversion Hrun; subst.
        pose proof (path_wav_deleted _ output_file keep_tags _ a t d Hk Hl Hi Hd) as Hp.
        by same_world Hp.
      * cbn zeta in Hrun. destruct (isinstance e ID3NoHeaderError) eqn:He;
          inversion Hrun; subst.
        -- pose proof (path_wav_delete_absent _ output_file keep_tags _ a t e d
                         Hk Hl Hi Hd He) as Hp.
           by same_world Hp.
        -- pose proof (path_wav_delete_failed _ output_file keep_tags _ a t e d
                         Hk Hl Hi Hd He) as Hp.
           by same_world Hp.
    + destruct (isinstance e ID3NoHeaderError) eqn:He; inversion Hrun; subst.
      * pose proof (path_wav_absent _ output_file keep_tags _ a e Hk Hl Hi He) as Hp.
        by same_world Hp.
      * pose proof (path_wav_id3_failed _ output_file keep_tags _ a e Hk Hl Hi He)
          as Hp.
        by same_world Hp.
Qed.

Lemma extended_extended w d1 d2 evs1 evs2 recs1 recs2 :
  extended (extended w d1 evs1 recs1) d2 evs2 recs2 =
  extended w d2 (evs1 ++ evs2) (recs1 ++ recs2).
Proof. unfold extended. cbn. by rewrite !app_assoc. Qed.

Lemma record_call_extended c w : record_call c w = extended w (disk w) [c] [].
Proof. unfold record_call, extended. by rewrite app_nil_r. Qed.

Lemma record_log_extended l msg w :
  record_log l msg w = extended w (disk w) [] [(l, msg)].
Proof. unfold record_log, extended. by rewrite app_nil_r. Qed.

(** *** The delete loop, call by call *)

Lemma delete_loop_shape input_file tags : ∀ audio w r w',
  delete_loop input_file tags audio w = (r, w') →
  ∃ (rs : list (option exn)) (recs : list (level * string)),
    (length rs ≤ length tags)%nat ∧
    w' = extended w (disk w) (zip_with CallDel tags rs) recs ∧
    match r with
    | Return _ =>
        length rs = length tags ∧ Forall recoverable rs ∧
        Forall (λ rec, rec.1 = WARNING) recs
    | Raise e =>
        ∃ rs' warns tag,
          rs = rs' ++ [Some e] ∧ Forall recoverable rs' ∧
          tags !! length rs' = Some tag ∧
          isinstance e KeyError = false ∧
          recs = warns ++ [del_error input_file tag e] ∧
          Forall (λ rec, rec.1 = WARNING) warns
    end.
Proof.
  induction tags as [|tag rest IH]; intros audio w r w' Hrun.
  - inversion Hrun; subst. exists [], []. split; [done|].
    split; [by rewrite extended_nil|]. by repeat split.
  - rewrite delete_loop_cons in Hrun. cbn zeta in Hrun.
    destruct (delitem tag audio) as [[[]|e] a'] eqn:Hd; cbn [fst snd raised] in Hrun.
    + apply IH in Hrun as (rs & recs & Hlen & -> & Hr).
      exists (None :: rs), recs. split; [cbn; lia|]. split.
      { by rewrite record_call_extended, extended_extended. }
      destruct r as [a|e].
      * destruct Hr as (Hlen' & Hrs & Hrecs). repeat split; try done.
        -- cbn. by rewrite Hlen'.
        -- by constructor.
      * destruct Hr as (rs' & warns & t & -> & Hrs & Ht & He & -> & Hw).
        exists (None :: rs'), warns, t. repeat split; try done. by constructor.
    + destruct (isinstance e KeyError) eqn:Hk.
      * apply IH in Hrun as (rs & recs & Hlen & -> & Hr).
        exists (Some e :: rs), (del_warning input_file tag :: recs).
        split; [cbn; lia|]. split.
        { by rewrite record_log_extended, record_call_extended, !extended_extended. }
        destruct r as [a|e0].
        -- destruct Hr as (Hlen' & Hrs & Hrecs). repeat split.
           ++ cbn. by rewrite Hlen'.
           ++ by constructor.
           ++ by constructor.
        -- destruct Hr as (rs' & warns & t & -> & Hrs & Ht & He & -> & Hw).
           exists (Some e :: rs'), (del_warning input_file tag :: warns), t.
           repeat split; try done; by constructor.
      * inversion Hrun; subst. exists [Some e], [del_error input_file tag e].
        split; [cbn; lia|]. split.
        { rewrite record_log_extended, record_call_extended, !extended_extended.
          cbn [zip_with]. by rewrite zip_with_nil_r. }
        exists [], [], tag. by repeat split.
Qed.

Lemma del_tags_zip (tags : list string) : ∀ rs : list (option exn),
  del_tags (zip_with CallDel tags rs) = take (length rs) tags.
Proof.
  induction tags as [|t tags IH]; intros [|x rs]; try done.
  cbn. f_equal. apply IH.
Qed.

Lemma del_tags_app evs1 evs2 : del_tags (evs1 ++ evs2) = del_tags evs1 ++ del_tags evs2.
Proof. apply omap_app. Qed.

Lemma del_tags_open c p x evs : del_tags (CallOpen c p x :: evs) = del_tags evs.
Proof. done. Qed.

Lemma del_tags_save a p x : del_tags [CallSave a p x] = [].
Proof. done. Qed.

Lemma elem_of_del_tags evs t x : CallDel t x ∈ evs → t ∈ del_tags evs.
Proof. intros Hin. apply list_elem_of_omap. by exists (CallDel t x). Qed.

Lemma zip_del_not_write (tags : list string) (rs : list (option exn)) :
  Forall (λ c, is_write c = false) (zip_with CallDel tags rs).
Proof.
  revert rs. induction tags as [|t tags IH]; intros [|x rs]; cbn;
    constructor; [done|apply IH].
Qed.

Lemma tagged_file_inj input_file d a1 a2 :
  tagged_file input_file d a1 → tagged_file input_file d a2 → a1 = a2.
Proof. intros [[? ?]|[? ?]] [[? ?]|[? ?]]; congruence. Qed.

Lemma tagged_not_failed input_file d a e :
  tagged_file input_file d a → ¬ open_failed input_file d e.
Proof.
  intros [[? ?]|[? ?]] [(? & ? & ?)|[(? & ?)|(? & ?)]]; congruence.
Qed.

(** *** What any run does to the log, to the disk, and which tags it deletes *)

Lemma run_log input_file output_file keep_tags w r w' :
  remove_metadata input_file output_file keep_tags w = (r, w') →
  stdout w' = stdout w ∧ handlers w' = handlers w ∧
  ∃ recs, log w' = log w ++ recs ∧
    match r with
    | Return _ => Forall (λ rec, rec.1 ≠ ERROR) recs
    | Raise e => ∃ recs', recs = recs' ++ [(ERROR, outer_msg input_file e)]
    end.
Proof.
  intros Hrun. apply run_paths in Hrun.
  destruct Hrun as [Hk|e Hk Hl He|e Hf|a e w1 Ht Hloop|a a' w1 d Ht Hloop Hs
                   |a a' w1 e d Ht Hloop Hs|a e Hk Hl Hi He|a e Hk Hl Hi He
                   |a t d Hk Hl Hi Hd|a t e d Hk Hl Hi Hd He|a t e d Hk Hl Hi Hd He];
    try (apply delete_loop_shape in Hloop as (rs & recs & Hlen & -> & Hr);
         rewrite record_call_extended, !extended_extended);
    (split; [done|]); (split; [done|]); cbn [log extended app].
  - eexists. split; [done|]. by exists [].
  - eexists. split; [done|]. by repeat constructor.
  - eexists. split; [done|]. by exists [].
  - destruct Hr as (rs' & warns & t & -> & _ & _ & _ & -> & _).
    eexists. split; [done|]. by eexists.
  - destruct Hr as (_ & _ & Hw). eexists. split; [done|].
    apply Forall_app. split; [|by repeat constructor].
    eapply Forall_impl; [exact Hw|]. by intros [l m] ->.
  - eexists. split; [done|].
    exists (recs ++ [save_error (default input_file output_file) e]).
    by rewrite <- app_assoc.
  - eexists. split; [done|]. by repeat constructor.
  - eexists. split; [done|]. by exists [wav_error input_file e].
  - eexists. split; [done|]. by repeat constructor.
  - eexists. split; [done|]. by repeat constructor.
  - eexists. split; [done|]. by exists [wav_error input_file e].
Qed.

Lemma run_writes input_file output_file keep_tags w r w' :
  remove_metadata input_file output_file keep_tags w = (r, w') →
  ∃ evs, calls w' = calls w ++ evs ∧
    ((Forall (λ c, is_write c = false) evs ∧ disk w' = disk w) ∨
     (∃ pre c, evs = pre ++ [c] ∧ Forall (λ c, is_write c = false) pre ∧
        is_write c = true ∧ disk w' = write_effect c (disk w))).
Proof.
  intros Hrun. apply run_paths in Hrun.
  destruct Hrun as [Hk|e Hk Hl He|e Hf|a e w1 Ht Hloop|a a' w1 d Ht Hloop Hs
                   |a a' w1 e d Ht Hloop Hs|a e Hk Hl Hi He|a e Hk Hl Hi He
                   |a t d Hk Hl Hi Hd|a t e d Hk Hl Hi Hd He|a t e d Hk Hl Hi Hd He];
    try (apply delete_loop_shape in Hloop as (rs & recs & Hlen & -> & Hr);
         rewrite record_call_extended in *; rewrite !extended_extended in *;
         cbn [disk extended] in * );
    cbn [calls disk extended]; eexists; (split; [reflexivity|]).
  - left. by split.
  - left. split; [by repeat constructor|done].
  - left. split; [by repeat constructor|done].
  - left. split; [|done]. rewrite app_nil_r.
    constructor; [done|apply zip_del_not_write].
  - right.
    exists (CallOpen (ctor_name input_file) input_file None
              :: zip_with CallDel (tags_to_remove a keep_tags) rs),
      (CallSave a' (default input_file output_file) None).
    split; [done|]. split; [constructor; [done|apply zip_del_not_write]|].
    split; [done|]. cbn [write_effect]. by rewrite Hs.
  - right.
    exists (CallOpen (ctor_name input_file) input_file None
              :: zip_with CallDel (tags_to_remove a keep_tags) rs),
      (CallSave a' (default input_file output_file) (Some e)).
    split; [done|]. split; [constructor; [done|apply zip_del_not_write]|].
    split; [done|]. cbn [write_effect]. by rewrite Hs.
  - left. split; [by repeat constructor|done].
  - left. split; [by repeat constructor|done].
  - right. exists [CallOpen "WAVE" input_file None; CallOpen "ID3" input_file None],
      (CallID3Delete t None).
    split; [done|]. split; [by repeat constructor|]. split; [done|].
    cbn [write_effect]. by rewrite Hd.
  - right. exists [CallOpen "WAVE" input_file None; CallOpen "ID3" input_file None],
      (CallID3Delete t (Some e)).
    split; [done|]. split; [by repeat constructor|]. split; [done|].
    cbn [write_effect]. by rewrite Hd.
  - right. exists [CallOpen "WAVE" input_file None; CallOpen "ID3" input_file None],
      (CallID3Delete t (Some e)).
    split; [done|]. split; [by repeat constructor|]. split; [done|].
    cbn [write_effect]. by rewrite Hd.
Qed.

Lemma run_dels input_file output_file keep_tags w r w' evs :
  remove_metadata input_file output_file keep_tags w = (r, w') →
  calls w' = calls w ++ evs →
  (∀ audio, tagged_file input_file (disk w) audio →
     del_tags evs `prefix_of` tags_to_remove audio keep_tags ∧
     ((r = Return tt ∨ ∃ c, c ∈ evs ∧ is_write c = true) →
      del_tags evs = tags_to_remove audio keep_tags)) ∧
  ((∀ audio, ¬ tagged_file input_file (disk w) audio) → del_tags evs = []).
Proof.
  intros Hrun Hc. apply run_paths in Hrun.
  destruct Hrun as [Hk|e Hk Hl He|e Hf|a e w1 Ht Hloop|a a' w1 d Ht Hloop Hs
                   |a a' w1 e d Ht Hloop Hs|a e Hk Hl Hi He|a e Hk Hl Hi He
                   |a t d Hk Hl Hi Hd|a t e d Hk Hl Hi Hd He|a t e d Hk Hl Hi Hd He];
    try (apply delete_loop_shape in Hloop as (rs & recs & Hlen & -> & Hr);
         rewrite record_call_extended in *; rewrite !extended_extended in * );
    cbn [calls extended] in Hc; apply app_inv_head in Hc; subst evs;
    try (split; [intros audio [[? ?]|[? ?]]; congruence|done]).
  - split; [|done]. intros audio Ht. by destruct (tagged_not_failed _ _ _ e Ht).
  - split; [|intros Hno; by destruct (Hno a)].
    intros audio Ht'. rewrite (tagged_file_inj _ _ _ _ Ht' Ht).
    rewrite app_nil_r. cbn [app]. rewrite del_tags_open, del_tags_zip.
    split; [apply prefix_take|].
    intros [Hret|(c & Hin & Hw)]; [done|].
    apply elem_of_cons in Hin as [->|Hin]; [done|].
    pose proof (zip_del_not_write (tags_to_remove a keep_tags) rs) as HF.
    rewrite Forall_forall in HF. specialize (HF _ Hin). congruence.
  - split; [|intros Hno; by destruct (Hno a)].
    intros audio Ht'. rewrite (tagged_file_inj _ _ _ _ Ht' Ht).
    destruct Hr as (Hlen' & _ & _).
    cbn [app]. rewrite del_tags_open, del_tags_app, del_tags_zip, Hlen', firstn_all.
    rewrite del_tags_save, app_nil_r. by split.
  - split; [|intros Hno; by destruct (Hno a)].
    intros audio Ht'. rewrite (tagged_file_inj _ _ _ _ Ht' Ht).
    destruct Hr as (Hlen' & _ & _).
    cbn [app]. rewrite del_tags_open, del_tags_app, del_tags_zip, Hlen', firstn_all.
    rewrite del_tags_save, app_nil_r. by split.
Qed.

Lemma tags_to_remove_filter audio keep_tags :
  tags_to_remove audio keep_tags =
  filter (λ tag, tag ∉ default [] keep_tags) (keys audio).
Proof.
  unfold tags_to_remove. destruct keep_tags as [[|k ks]|]; cbn [truthy_list default];
    try done; induction (keys audio) as [|t l IH]; try done;
    rewrite filter_cons; (destruct (decide _) as [_|Hno];
      [by rewrite <- IH|destruct Hno; apply not_elem_of_nil]).
Qed.

Lemma filter_agree {A} (P Q : A → Prop) `{!∀ x, Decision (P x), !∀ x, Decision (Q x)}
    (l : list A) :
  (∀ x, x ∈ l → (P x ↔ Q x)) → filter P l = filter Q l.
Proof.
  induction l as [|x l IH]; intros Hpq; [done|].
  rewrite !filter_cons.
  assert (filter P l = filter Q l) as ->.
  { apply IH. intros y Hy. apply Hpq. by right. }
  destruct (decide (P x)) as [Hp|Hp], (decide (Q x)) as [Hq|Hq]; try done;
    [destruct Hq|destruct Hp]; apply (Hpq x); try done; by left.
Qed.



End Paths.

(** ** Suffixes *)

Lemma list_of_substring (s : string) : ∀ n m,
  list_ascii_of_string (substring n m s) = take m (drop n (list_ascii_of_string s)).
Proof.
  induction s as [|c s IH]; intros [|n] [|m]; cbn; try done; by rewrite IH.
Qed.

Lemma length_list_of_string (s : string) :
  length (list_ascii_of_string s) = String.length s.
Proof. induction s as [|c s IH]; cbn; [done|by rewrite IH]. Qed.

Lemma list_of_append (s t : string) :
  list_ascii_of_string (s +:+ t) = list_ascii_of_string s ++ list_ascii_of_string t.
Proof.
  induction s as [|c s IH]; [done|].
  change (String c s +:+ t) with (String c (s +:+ t)). cbn. by rewrite IH.
Qed.

Lemma list_of_string_inj (s t : string) :
  list_ascii_of_string s = list_ascii_of_string t → s = t.
Proof.
  intros Heq. rewrite <- (string_of_list_ascii_of_string s),
    <- (string_of_list_ascii_of_string t). by rewrite Heq.
Qed.

Lemma endswith_suffix (s suffix : string) :
  endswith s suffix = true ↔
  list_ascii_of_string suffix `suffix_of` list_ascii_of_string s.
Proof.
  unfold endswith. rewrite andb_true_iff, Nat.leb_le, String.eqb_eq. split.
  - intros [Hlen Hsub].
    apply (f_equal list_ascii_of_string) in Hsub. rewrite list_of_substring in Hsub.
    rewrite take_ge in Hsub
      by (rewrite length_drop, length_list_of_string; lia).
    rewrite <- Hsub. apply suffix_drop.
  - intros [k Hk].
    assert (String.length s = (length k + String.length suffix)%nat) as Hlen.
    { by rewrite <- !length_list_of_string, Hk, length_app. }
    split; [lia|]. apply list_of_string_inj.
    rewrite list_of_substring, Hk.
    replace (String.length s - String.length suffix)%nat with (length k) by lia.
    rewrite drop_app_length. apply take_ge. by rewrite length_list_of_string.
Qed.

Lemma endswith_append (s suffix : string) :
  endswith s suffix = true ↔ ∃ stem, s = stem +:+ suffix.
Proof.
  rewrite endswith_suffix. split.
  - intros [k Hk]. exists (string_of_list_ascii k). apply list_of_string_inj.
    by rewrite list_of_append, list_ascii_of_string_of_list_ascii.
  - intros [stem ->]. exists (list_ascii_of_string stem). apply list_of_append.
Qed.

(** Two suffixes that end in different characters are never both matched. *)
Lemma endswith_exclusive (s : string) (p q : string) (a b : ascii) :
  a ≠ b →
  endswith s (p +:+ String a EmptyString) = true →
  endswith s (q +:+ String b EmptyString) = false.
Proof.
  intros Hab Hp. destruct (endswith s (q +:+ String b EmptyString)) eqn:Hq; [|done].
  apply endswith_suffix in Hp as [k1 H1]. apply endswith_suffix in Hq as [k2 H2].
  rewrite list_of_append in H1, H2. cbn in H1, H2.
  rewrite H1, !app_assoc in H2. apply app_inj_tail in H2 as [_ ?]. congruence.
Qed.

Lemma length_lower (s : string) : String.length (lower s) = String.length s.
Proof. induction s as [|c s IH]; cbn; [done|by rewrite IH]. Qed.

Lemma endswith_short (s suffix : string) :
  (String.length s < String.length suffix)%nat → endswith s suffix = false.
Proof.
  intros Hlen. unfold endswith.
  by rewrite (proj2 (Nat.leb_gt _ _) Hlen).
Qed.

(** *** Case folding *)








(** ** The format of a path *)

Section Format.
Context `{Mutagen} `{Logging}.

#[local] Arguments String.append : simpl never.







End Format.

(** ** The empty keep-list *)

Section KeepList.
Context `{Mutagen} `{Logging}.

(** C10. An empty keep-list is the absent keep-list: the tags to remove are
    all the keys of the container in both cases, [remove_metadata] computes
    the same result in the same world, and so does [main].  Every tag is
    deleted: with the empty keep-list the run asks for the deletion of the
    keys of the loaded container, in their order and of no other tag, and
    of all of them when it returns or reaches the save; over a dictionary
    every one of these deletions succeeds and the container that is saved
    has no keys. *)
Theorem C10_empty_keep_list_is_none :
  (∀ audio, tags_to_remove audio (Some []) = keys audio
            ∧ tags_to_remove audio None = keys audio) ∧
  (∀ input_file output_file w,
     remove_metadata input_file output_file (Some []) w =
     remove_metadata input_file output_file None w) ∧
  (∀ input_file output_file log_file w,
     main (mkArgs input_file output_file (Some []) log_file) w =
     main (mkArgs input_file output_file None log_file) w) ∧
  (∀ input_file output_file w audio,
     tagged_file input_file (disk w) audio →
     let run := remove_metadata input_file output_file (Some []) w in
     ∃ evs, calls run.2 = calls w ++ evs ∧
       del_tags evs `prefix_of` keys audio ∧
       ((run.1 = Return tt ∨ ∃ c, c ∈ evs ∧ is_write c = true) →
        del_tags evs = keys audio)) ∧
  (unique_keys → deletes_present →
   ∀ input_file output_file w audio,
     tagged_file input_file (disk w) audio →
     ∃ audio' r w',
       remove_metadata input_file output_file (Some []) w = (r, w') ∧
       keys audio' = [] ∧
       calls w' = calls w ++
         CallOpen (ctor_name input_file) input_file None
           :: map (λ tag, CallDel tag None) (keys audio)
           ++ [CallSave audio' (default input_file output_file) (raised r)]).
Proof.
  split; [|split; [|split; [|split]]].
  - done.
  - reflexivity.
  - reflexivity.
  - intros i o w audio Ht run. subst run.
    destruct (remove_metadata i o (Some []) w) as [r w'] eqn:Hrun.
    destruct (run_writes _ _ _ _ _ _ Hrun) as (evs & Hc & _).
    exists evs. split; [done|].
    destruct (run_dels _ _ _ _ _ _ evs Hrun Hc) as [Htagged _].
    exact (Htagged audio Ht).
  - intros Hu Hdel i o w audio Ht.
    destruct (run_dict i o (Some []) w audio Hu Hdel Ht) as (a' & Hkeys & Hrun).
    cbn zeta in Hrun. exists a'. rewrite Hrun.
    assert (keys a' = []) as Hempty.
    { destruct (keys a') as [|k l] eqn:Hk; [done|].
      assert (k ∈ k :: l) as Hin by (by left).
      apply Hkeys in Hin as [_ Hin]. by apply not_elem_of_nil in Hin. }
    destruct (save a' _ (disk w)) as [[[]|e] d]; eexists _, _;
      (split; [reflexivity|]); by split.
Qed.

End KeepList.

(** ** Further properties of the program *)

(** X10. The three suffixes exclude one another, so the order of the tests
    never decides: a path is classified MP3, FLAC or WAV exactly when its
    lowercased form is some stem followed by [.mp3], [.flac] or [.wav], and
    a path shorter than four characters is unsupported. *)
Theorem X10_classify_exact (path : string) :
  (classify path = KindMP3 ↔ ∃ stem, lower path = stem +:+ ".mp3") ∧
  (classify path = KindFLAC ↔ ∃ stem, lower path = stem +:+ ".flac") ∧
  (classify path = KindWAV ↔ ∃ stem, lower path = stem +:+ ".wav") ∧
  ((String.length path < 4)%nat → classify path = Unsupported).
Proof.
  rewrite <- !endswith_append.
  assert (endswith (lower path) ".mp3" = true →
          endswith (lower path) ".flac" = false) as H1.
  { apply (endswith_exclusive _ ".mp" ".fla" "3" "c"). done. }
  assert (endswith (lower path) ".mp3" = true →
          endswith (lower path) ".wav" = false) as H2.
  { apply (endswith_exclusive _ ".mp" ".wa" "3" "v"). done. }
  assert (endswith (lower path) ".flac" = true →
          endswith (lower path) ".wav" = false) as H3.
  { apply (endswith_exclusive _ ".fla" ".wa" "c" "v"). done. }
  unfold classify.
  destruct (endswith (lower path) ".mp3") eqn:Hm;
    destruct (endswith (lower path) ".flac") eqn:Hf;
    destruct (endswith (lower path) ".wav") eqn:Hw;
    try (by specialize (H1 eq_refl)); try (by specialize (H2 eq_refl));
    try (by specialize (H3 eq_refl));
    (split; [done|]); (split; [done|]); (split; [done|]); intros Hlen;
    try done;
    match goal with
    | Hs : endswith (lower path) ?suf = true |- _ =>
        rewrite endswith_short in Hs by (rewrite length_lower; cbn; lia); done
    end.
Qed.

Section Further.
Context `{Mutagen} `{Logging}.

#[local] Arguments String.append : simpl never.

Lemma save_not_deleted a p x (tags : list string) (rs : list (option exn)) :
  CallSave a p x ∉ zip_with CallDel tags rs.
Proof.
  intros Hin. pose proof (zip_del_not_write tags rs) as HF.
  rewrite Forall_forall in HF. by specialize (HF _ Hin).
Qed.

Lemma filter_none {A} (P : A → Prop) `{!∀ x, Decision (P x)} (l : list A) :
  (∀ x, x ∈ l → ¬ P x) → filter P l = [].
Proof.
  induction l as [|x l IH]; intros Hno; [done|].
  rewrite filter_cons. destruct (decide (P x)) as [Hp|_].
  - destruct (Hno x); [by left|done].
  - apply IH. intros y Hy. apply Hno. by right.
Qed.

(** X1. A tag named in the keep-list is never handed to [del], whatever the
    library does: every deletion of a run is of a key the loaded container
    reported and the keep-list does not name. *)
Theorem X1_kept_tags_never_deleted
    input_file output_file keep_tags w r w' evs tag x :
  remove_metadata input_file output_file keep_tags w = (r, w') →
  calls w' = calls w ++ evs →
  CallDel tag x ∈ evs →
  (tag ∉ default [] keep_tags) ∧
  ∃ audio, tagged_file input_file (disk w) audio ∧ tag ∈ keys audio.
Proof.
  intros Hrun Hc Hin. apply elem_of_del_tags in Hin.
  destruct (run_dels _ _ _ _ _ _ _ Hrun Hc) as [Htagged Hnone].
  assert ((∀ a, ¬ tagged_file input_file (disk w) a) → False) as Hnt.
  { intros Hno. rewrite (Hnone Hno) in Hin. by apply elem_of_nil in Hin. }
  destruct (run_cases input_file (disk w))
    as [Hk|[(e & Hk & Hl & He)|[(e & Hf)|[(a & Ht)|(a & Hk & Hl)]]]].
  - destruct Hnt. intros a [[? ?]|[? ?]]; congruence.
  - destruct Hnt. intros a [[? ?]|[? ?]]; congruence.
  - destruct Hnt. intros a Ht. by destruct (tagged_not_failed _ _ _ e Ht).
  - destruct (Htagged a Ht) as [Hpre _].
    apply (elem_of_prefix _ _ _ Hin) in Hpre.
    rewrite tags_to_remove_filter in Hpre.
    apply list_elem_of_filter in Hpre as [Hno Hkey].
    split; [done|]. by exists a.
  - destruct Hnt. intros a' [[? ?]|[? ?]]; congruence.
Qed.

(** X2. The deletions of an MP3 or FLAC run are an initial segment of the
    list computed before the loop, in its order; they are the whole list
    when the run returns or reaches a write.  A run that loaded no MP3 or
    FLAC container deletes nothing. *)
Theorem X2_deletions_follow_the_list
    input_file output_file keep_tags w r w' evs :
  remove_metadata input_file output_file keep_tags w = (r, w') →
  calls w' = calls w ++ evs →
  (∀ audio, tagged_file input_file (disk w) audio →
     del_tags evs `prefix_of` tags_to_remove audio keep_tags ∧
     ((r = Return tt ∨ ∃ c, c ∈ evs ∧ is_write c = true) →
      del_tags evs = tags_to_remove audio keep_tags)) ∧
  ((∀ audio, ¬ tagged_file input_file (disk w) audio) → del_tags evs = []).
Proof. apply run_dels. Qed.

(** X3. A run writes to the disk at most once, and the write is its last
    library call: either no call of the trace is a write and the disk is
    the initial one, or the last call is the only write and the disk is the
    one that call left when made on the initial disk. *)
Theorem X3_one_write_at_the_end input_file output_file keep_tags w r w' :
  remove_metadata input_file output_file keep_tags w = (r, w') →
  ∃ evs, calls w' = calls w ++ evs ∧
    ((Forall (λ c, is_write c = false) evs ∧ disk w' = disk w) ∨
     (∃ pre c, evs = pre ++ [c] ∧ Forall (λ c, is_write c = false) pre ∧
        is_write c = true ∧ disk w' = write_effect c (disk w))).
Proof. apply run_writes. Qed.


(** X5. A save that raises ends the run with that exception: the run logs
    "Error saving file <target>: <text>" and then the record of the outer
    handler, and the disk is the one the failed save left, not the initial
    one. *)
Theorem X5_save_failure
    input_file output_file keep_tags w r w' evs audio path e :
  remove_metadata input_file output_file keep_tags w = (r, w') →
  calls w' = calls w ++ evs →
  CallSave audio path (Some e) ∈ evs →
  r = Raise e ∧
  path = default input_file output_file ∧
  disk w' = (save audio path (disk w)).2 ∧
  ∃ recs, log w' = log w ++ recs ++
            [save_error path e; (ERROR, outer_msg input_file e)].
Proof.
  intros Hrun Hc Hin. apply run_paths in Hrun.
  destruct Hrun as [Hk|e0 Hk Hl He|e0 Hf|a e0 w1 Ht Hloop|a a' w1 d Ht Hloop Hs
                   |a a' w1 e0 d Ht Hloop Hs|a e0 Hk Hl Hi He|a e0 Hk Hl Hi He
                   |a t d Hk Hl Hi Hd|a t e0 d Hk Hl Hi Hd He
                   |a t e0 d Hk Hl Hi Hd He];
    try (apply delete_loop_shape in Hloop as (rs & recs & Hlen & -> & Hr);
         rewrite record_call_extended in *; rewrite !extended_extended in *;
         cbn [disk extended] in * );
    cbn [calls extended] in Hc; apply app_inv_head in Hc; subst evs;
    repeat match goal with
      | Hm : _ ∈ [] |- _ => by apply elem_of_nil in Hm
      | Hm : _ ∈ _ :: _ |- _ => apply elem_of_cons in Hm as [Hm|Hm]
      | Hm : _ ∈ _ ++ _ |- _ => apply elem_of_app in Hm as [Hm|Hm]
      | Hm : CallSave _ _ _ ∈ zip_with CallDel _ _ |- _ =>
          by apply save_not_deleted in Hm
      | Hm : CallSave _ _ _ = _ |- _ =>
          first [discriminate Hm | injection Hm as -> -> ->]
      end.
  repeat split; try done.
  - by rewrite Hs.
  - exists recs. by cbn [log extended app].
Qed.

(** X6. [remove_metadata] only appends to the log and never prints or
    touches the handlers.  It returns normally exactly when it appended no
    ERROR record; when it raises, the last record is the ERROR of the outer
    handler for the exception it raises. *)
Theorem X6_errors_are_logged input_file output_file keep_tags w r w' :
  remove_metadata input_file output_file keep_tags w = (r, w') →
  stdout w' = stdout w ∧ handlers w' = handlers w ∧
  ∃ recs, log w' = log w ++ recs ∧
    (r = Return tt ↔ Forall (λ rec, rec.1 ≠ ERROR) recs) ∧
    (∀ e, r = Raise e → last recs = Some (ERROR, outer_msg input_file e)).
Proof.
  intros Hrun. destruct (run_log _ _ _ _ _ _ Hrun) as (Hout & Hh & recs & Hlog & Hr).
  split; [done|]. split; [done|]. exists recs. split; [done|].
  destruct r as [[]|e].
  - split; [done|]. by intros e [=].
  - destruct Hr as (recs' & ->). split.
    + split; [done|]. intros HF. apply Forall_app in HF as [_ HF].
      apply Forall_cons in HF as [HF _]. by destruct HF.
    + intros e' [= <-]. apply last_snoc.
Qed.


(** X8. On a WAV file a missing ID3 header is not a failure, wherever it
    shows: when the [ID3] constructor raises [ID3NoHeaderError], and also
    when [delete] itself raises it, the run returns normally and logs "No
    ID3 tags found" followed by "ID3 metadata removed".  In the second case
    the disk is the one the failed [delete] left. *)
Theorem X8_wav_missing_header_is_success
    input_file output_file keep_tags w audio :
  classify input_file = KindWAV →
  WAVE_load input_file (disk w) = Return audio →
  (∀ e, ID3_load input_file (disk w) = Raise e →
        isinstance e ID3NoHeaderError = true →
     ∃ w', remove_metadata input_file output_file keep_tags w = (Return tt, w') ∧
       disk w' = disk w ∧
       log w' = log w ++ [wav_absent input_file; wav_done input_file]) ∧
  (∀ t e d, ID3_load input_file (disk w) = Return t →
            ID3_delete t (disk w) = (Raise e, d) →
            isinstance e ID3NoHeaderError = true →
     ∃ w', remove_metadata input_file output_file keep_tags w = (Return tt, w') ∧
       disk w' = d ∧
       log w' = log w ++ [wav_absent input_file; wav_done input_file] ∧
       calls w' = calls w ++
         [CallOpen "WAVE" input_file None; CallOpen "ID3" input_file None;
          CallID3Delete t (Some e)]).
Proof.
  intros Hk Hl. split.
  - intros e Hi He. rewrite (remove_metadata_wav _ _ _ _ audio) by done.
    cbn zeta. rewrite Hi, He. eexists. split; [reflexivity|].
    split; [done|]. cbn. by rewrite <- !app_assoc.
  - intros t e d Hi Hd He. rewrite (remove_metadata_wav _ _ _ _ audio) by done.
    cbn zeta. rewrite Hi, Hd. cbn zeta. rewrite He. eexists. split; [reflexivity|].
    split; [done|]. split; cbn; by rewrite <- !app_assoc.
Qed.

(** X9. On a WAV file any other exception of the [ID3] constructor or of
    [delete] ends the run with that exception, after "Error while removing
    ID3 tags from <input>: <text>" and the record of the outer handler; the
    disk is the initial one in the first case and the one [delete] left in
    the second. *)
Theorem X9_wav_failures input_file output_file keep_tags w audio :
  classify input_file = KindWAV →
  WAVE_load input_file (disk w) = Return audio →
  (∀ e, ID3_load input_file (disk w) = Raise e →
        isinstance e ID3NoHeaderError = false →
     ∃ w', remove_metadata input_file output_file keep_tags w = (Raise e, w') ∧
       disk w' = disk w ∧
       log w' = log w ++ [wav_error input_file e; (ERROR, outer_msg input_file e)] ∧
       calls w' = calls w ++
         [CallOpen "WAVE" input_file None; CallOpen "ID3" input_file (Some e)]) ∧
  (∀ t e d, ID3_load input_file (disk w) = Return t →
            ID3_delete t (disk w) = (Raise e, d) →
            isinstance e ID3NoHeaderError = false →
     ∃ w', remove_metadata input_file output_file keep_tags w = (Raise e, w') ∧
       disk w' = d ∧
       log w' = log w ++ [wav_error input_file e; (ERROR, outer_msg input_file e)]).
Proof.
  intros Hk Hl. split.
  - intros e Hi He. rewrite (remove_metadata_wav _ _ _ _ audio) by done.
    cbn zeta. rewrite Hi, He. eexists. split; [reflexivity|].
    split; [done|]. split; cbn; by rewrite <- !app_assoc.
  - intros t e d Hi Hd He. rewrite (remove_metadata_wav _ _ _ _ audio) by done.
    cbn zeta. rewrite Hi, Hd. cbn zeta. rewrite He. eexists. split; [reflexivity|].
    split; [done|]. cbn. by rewrite <- !app_assoc.
Qed.

(** X11. Only the keys the keep-list shares with the loaded container
    matter: two keep-lists (absent, empty, reordered, with duplicates or
    with names the file does not have) that agree on the keys of the
    container give the same run. *)
Theorem X11_keep_list_is_a_set input_file output_file keep_tags keep_tags' w :
  (∀ audio, tagged_file input_file (disk w) audio →
     ∀ tag, tag ∈ keys audio →
       (tag ∈ default [] keep_tags ↔ tag ∈ default [] keep_tags')) →
  remove_metadata input_file output_file keep_tags w =
  remove_metadata input_file output_file keep_tags' w.
Proof.
  intros Hagree.
  destruct (run_cases input_file (disk w))
    as [Hk|[(e & Hk & Hl & He)|[(e & Hf)|[(a & Ht)|(a & Hk & Hl)]]]].
  - by rewrite !remove_metadata_unsupported.
  - by rewrite !(remove_metadata_noheader _ _ _ _ e).
  - by rewrite !(remove_metadata_open_failed _ _ _ _ e).
  - rewrite !(remove_metadata_tagged _ _ _ _ a) by done.
    rewrite !tags_to_remove_filter.
    rewrite (filter_agree (λ tag, tag ∉ default [] keep_tags)
               (λ tag, tag ∉ default [] keep_tags')); [done|].
    intros tag Hin. by rewrite (Hagree a Ht tag Hin).
  - by rewrite !(remove_metadata_wav _ _ _ _ a).
Qed.

Lemma run_all_kept input_file output_file keep_tags w audio :
  tagged_file input_file (disk w) audio →
  (∀ tag, tag ∈ keys audio → tag ∈ default [] keep_tags) →
  ∃ r w',
    remove_metadata input_file output_file keep_tags w = (r, w') ∧
    disk w' = (save audio (default input_file output_file) (disk w)).2 ∧
    calls w' = calls w ++
      [CallOpen (ctor_name input_file) input_file None;
       CallSave audio (default input_file output_file) (raised r)].
Proof.
  intros Ht Hall.
  rewrite (remove_metadata_tagged _ _ _ _ audio) by done.
  rewrite tags_to_remove_filter, filter_none by (intros t Hin Hno; by apply Hno, Hall).
  unfold mbind, M_bind. cbn [delete_loop]. unfold mret, M_ret.
  rewrite persist_tagged. cbn [disk log stdout handlers calls record_call].
  destruct (save audio _ (disk w)) as [[[]|e] d]; eexists _, _;
    (split; [reflexivity|]); (split; [done|]); cbn; by rewrite <- !app_assoc.
Qed.

(** X12. An MP3 or FLAC file is saved even when nothing is removed: when
    every key of the container is in the keep-list (or it has no keys) the
    run makes two library calls, the constructor and a save of the
    container as loaded, to the output path. *)
Theorem X12_nothing_to_remove_still_saves
    input_file output_file keep_tags w audio :
  tagged_file input_file (disk w) audio →
  (∀ tag, tag ∈ keys audio → tag ∈ default [] keep_tags) →
  ∃ r w',
    remove_metadata input_file output_file keep_tags w = (r, w') ∧
    disk w' = (save audio (default input_file output_file) (disk w)).2 ∧
    calls w' = calls w ++
      [CallOpen (ctor_name input_file) input_file None;
       CallSave audio (default input_file output_file) (raised r)].
Proof. apply run_all_kept. Qed.

(** X13. Removal with a keep-list is idempotent on a dictionary: the
    container a run saves has only kept keys, so a later run with the same
    keep-list on any file whose container has those keys deletes nothing
    and saves that container as loaded. *)
Theorem X13_second_run_deletes_nothing
    input_file output_file keep_tags w audio :
  unique_keys → deletes_present →
  tagged_file input_file (disk w) audio →
  ∃ audio' r w',
    remove_metadata input_file output_file keep_tags w = (r, w') ∧
    (∃ pre, calls w' = calls w ++ pre ++
              [CallSave audio' (default input_file output_file) (raised r)]) ∧
    ∀ input_file2 output_file2 w2 audio2,
      tagged_file input_file2 (disk w2) audio2 →
      (∀ tag, tag ∈ keys audio2 ↔ tag ∈ keys audio') →
      ∃ r2 w2',
        remove_metadata input_file2 output_file2 keep_tags w2 = (r2, w2') ∧
        disk w2' = (save audio2 (default input_file2 output_file2) (disk w2)).2 ∧
        calls w2' = calls w2 ++
          [CallOpen (ctor_name input_file2) input_file2 None;
           CallSave audio2 (default input_file2 output_file2) (raised r2)].
Proof.
  intros Hu Hdel Ht.
  destruct (run_dict input_file output_file keep_tags w audio Hu Hdel Ht)
    as (a' & Hkeys & Hrun). cbn zeta in Hrun.
  exists a'. rewrite Hrun.
  assert (∀ input_file2 output_file2 w2 audio2,
      tagged_file input_file2 (disk w2) audio2 →
      (∀ tag, tag ∈ keys audio2 ↔ tag ∈ keys a') →
      ∃ r2 w2',
        remove_metadata input_file2 output_file2 keep_tags w2 = (r2, w2') ∧
        disk w2' = (save audio2 (default input_file2 output_file2) (disk w2)).2 ∧
        calls w2' = calls w2 ++
          [CallOpen (ctor_name input_file2) input_file2 None;
           CallSave audio2 (default input_file2 output_file2) (raised r2)])
    as Hsecond.
  { intros i2 o2 w2 a2 Ht2 Hsame. apply run_all_kept; [done|].
    intros tag Hin. apply Hsame, Hkeys in Hin. by destruct Hin. }
  destruct (save a' _ (disk w)) as [[[]|e] d]; eexists _, _;
    (split; [reflexivity|]);
    (split; [eexists; cbn [calls raised]; by rewrite app_comm_cons|done]).
Qed.

End Further.

(** ** The dictionary meets the contracts *)

Module RefLaws.

Lemma keys_lookup (m : gmap string string) (k : string) :
  k ∈ (map_to_list m).*1 ↔ is_Some (m !! k).
Proof.
  rewrite list_elem_of_fmap. split.
  - intros ([k' v] & -> & Hin). apply elem_of_map_to_list in Hin. by exists v.
  - intros [v Hv]. exists (k, v). split; [done|]. by apply elem_of_map_to_list.
Qed.

Lemma dict_unique_keys : @unique_keys Ref.dict.
Proof. intros a. apply NoDup_fst_map_to_list. Qed.

Lemma dict_deletes_present : @deletes_present Ref.dict.
Proof.
  intros a k Hin. apply keys_lookup in Hin as [v Hv].
  exists (Ref.mkAudio (delete k (Ref.a_tags a)) (Ref.a_stream a)). split.
  - cbn. unfold Ref.del. by rewrite Hv.
  - intros k'. cbn. rewrite !keys_lookup, lookup_delete_is_Some.
    split; intros [? ?]; split; done.
Qed.

Lemma dict_save_frame : @save_frame Ref.dict.
Proof. intros a p q d Hne. cbn. by apply lookup_insert_ne. Qed.

Lemma dict_id3_delete_removes : @id3_delete_removes Ref.dict.
Proof.
  intros p d d' t Hl Hd. cbn in *. unfold Ref.read_id3, Ref.drop_id3 in *.
  destruct (d !! p) as [f|] eqn:Hp; [|done].
  destruct (Ref.f_tags f); [|done].
  inversion Hl; subst t. inversion Hd; subst d'.
  exists (Ref.no_header p). rewrite lookup_alter_eq, Hp. done.
Qed.


End RefLaws.

(** ** The properties at concrete inputs *)

(** Runs over the plain dictionary. *)
Module DictWitness.

#[local] Existing Instance Ref.dict.
#[local] Existing Instance Ref.env.

Lemma C1_witness :
  ∃ audio' r w',
    remove_metadata "song.mp3" None (Some ["title"; "artist"]) Ref.song_world = (r, w') ∧
    (∃ pre, calls w' = calls Ref.song_world ++ pre ++
              [CallSave audio' (default "song.mp3" None) (raised r)]
            ∧ Forall (λ c, is_write c = false) pre) ∧
    (∀ k, k ∈ keys audio' ↔
          k ∈ keys Ref.song_audio ∧ k ∈ default [] (Some ["title"; "artist"])) ∧
    (Some ["title"; "artist"] = None → keys audio' = []) ∧
    (∀ k, k ∈ keys audio' → k ∈ keys Ref.song_audio).
Proof.
  apply (C1_surviving_keys "song.mp3" None (Some ["title"; "artist"])
           Ref.song_world Ref.song_audio).
  - exact RefLaws.dict_unique_keys.
  - exact RefLaws.dict_deletes_present.
  - left. split; reflexivity.
Defined.




Lemma C4_witness :
  remove_metadata "memo.wav" (Some "copy.wav") (Some ["TIT2"]) Ref.memo_world =
    remove_metadata "memo.wav" None None Ref.memo_world ∧
  ∃ r w',
    remove_metadata "memo.wav" (Some "copy.wav") (Some ["TIT2"]) Ref.memo_world
      = (r, w') ∧
    disk w' = (Ref.drop_id3 "memo.wav" Ref.memo_disk).2 ∧
    calls w' = calls Ref.memo_world ++
      [CallOpen "WAVE" "memo.wav" None; CallOpen "ID3" "memo.wav" None;
       CallID3Delete ("memo.wav" : ID3Obj)
         (raised (Ref.drop_id3 "memo.wav" Ref.memo_disk).1)] ∧
    ((Ref.drop_id3 "memo.wav" Ref.memo_disk).1 = Return tt → r = Return tt).
Proof.
  pose proof (C4_wav_ignores_keep_and_output "memo.wav" (Some "copy.wav")
                (Some ["TIT2"]) Ref.memo_world eq_refl) as (Hsame & Hdel & _).
  split; [exact Hsame|].
  apply (Hdel Ref.memo_audio "memo.wav"); reflexivity.
Defined.

Lemma C6_witness :
  ∃ audio' r w',
    remove_metadata "track.flac" (Some "out.flac") None Ref.track_world = (r, w') ∧
    keys audio' = [] ∧
    calls w' = calls Ref.track_world ++
      [CallOpen "FLAC" "track.flac" None; CallDel "comment" None;
       CallSave audio' "out.flac" (raised r)] ∧
    disk w' = (save audio' "out.flac" (disk Ref.track_world)).2 ∧
    disk w' !! "track.flac" = disk Ref.track_world !! "track.flac".
Proof.
  apply (proj2 C6_save_target RefLaws.dict_deletes_present
           RefLaws.dict_save_frame Ref.track_world Ref.track_audio); reflexivity.
Defined.


Lemma C8_witness :
  (∃ audio' r w',
     remove_metadata "song.mp3" None None Ref.song_world = (r, w') ∧
     keys audio' = [] ∧
     disk w' = (save audio' (default "song.mp3" None) (disk Ref.song_world)).2 ∧
     ∃ pre, calls w' = calls Ref.song_world ++ pre ++
              [CallSave audio' (default "song.mp3" None) (raised r)]) ∧
  (∃ w',
     remove_metadata "memo.wav" None None Ref.memo_world = (Return tt, w') ∧
     disk w' = {[ "memo.wav" := Ref.mkFile None "riff" ]} ∧
     (∃ e, ID3_load "memo.wav" {[ "memo.wav" := Ref.mkFile None "riff" ]} = Raise e
           ∧ isinstance e ID3NoHeaderError = true) ∧
     ∀ output_file' w2, disk w2 = {[ "memo.wav" := Ref.mkFile None "riff" ]} →
       disk (remove_metadata "memo.wav" output_file' None w2).2
         = {[ "memo.wav" := Ref.mkFile None "riff" ]} ∧
       ∀ audio2,
         WAVE_load "memo.wav" {[ "memo.wav" := Ref.mkFile None "riff" ]}
           = Return audio2 →
         (remove_metadata "memo.wav" output_file' None w2).1 = Return tt).
Proof.
  pose proof (C8_remove_all_idempotent RefLaws.dict_unique_keys
                RefLaws.dict_deletes_present RefLaws.dict_id3_delete_removes)
    as (Htagged & _ & _ & Hwav).
  split.
  - apply (Htagged "song.mp3" None Ref.song_world Ref.song_audio).
    left. split; reflexivity.
  - apply (Hwav "memo.wav" None Ref.memo_world Ref.memo_audio "memo.wav");
      reflexivity.
Defined.

Lemma C9_witness :
  NoDup (tags_to_remove Ref.track_audio None) ∧
  ∃ audio' r w' records,
    remove_metadata "track.flac" None None Ref.track_world = (r, w') ∧
    calls w' = calls Ref.track_world ++
      CallOpen (ctor_name "track.flac") "track.flac" None
        :: map (λ t, CallDel t None) (tags_to_remove Ref.track_audio None)
        ++ [CallSave audio' (default "track.flac" None) (raised r)] ∧
    log w' = log Ref.track_world ++ records ∧
    Forall (λ rec, rec.1 ≠ WARNING) records.
Proof.
  apply (C9_keyerror_unreachable "track.flac" None None Ref.track_world Ref.track_audio).
  - exact RefLaws.dict_unique_keys.
  - exact RefLaws.dict_deletes_present.
  - right. split; reflexivity.
Defined.

Lemma C10_witness :
  ∃ audio' r w',
    remove_metadata "song.mp3" None (Some []) Ref.song_world = (r, w') ∧
    keys audio' = [] ∧
    calls w' = calls Ref.song_world ++
      CallOpen (ctor_name "song.mp3") "song.mp3" None
        :: map (λ tag, CallDel tag None) (keys Ref.song_audio)
        ++ [CallSave audio' (default "song.mp3" None) (raised r)].
Proof.
  apply (proj2 (proj2 (proj2 (proj2 C10_empty_keep_list_is_none)))
           RefLaws.dict_unique_keys RefLaws.dict_deletes_present
           "song.mp3" None Ref.song_world Ref.song_audio).
  left. split; reflexivity.
Defined.

End DictWitness.

(** A run over a container that refuses to delete [title]. *)
Module FrozenWitness.

#[local] Existing Instance Ref.mutagen.

Lemma C5_witness :
  @nil (@call (Ref.mutagen ["title"])) = [] ∧
  Forall (λ c, is_write c = false)
    [@CallOpen (Ref.mutagen ["title"]) "MP3" "song.mp3" None] ∧
  Ref.aborted.1 = Raise Ref.read_only ∧
  disk Ref.aborted.2 = disk Ref.title_world ∧
  del_error "song.mp3" "title" Ref.read_only ∈ log Ref.aborted.2.
Proof.
  apply (@C5_fatal_deletion_aborts (Ref.mutagen ["title"])
           "song.mp3" (Some "out.mp3") None Ref.title_world
           Ref.aborted.1 Ref.aborted.2
           [CallOpen "MP3" "song.mp3" None] "title" Ref.read_only []).
  - apply surjective_pairing.
  - reflexivity.
  - reflexivity.
Defined.

End FrozenWitness.

(** ** The scenarios of the specification, computed *)

Module Scenarios.

#[local] Existing Instance Ref.dict.
#[local] Existing Instance Ref.env.

Example classify_by_suffix :
  classify "Song.MP3" = KindMP3 ∧ classify "track.flac" = KindFLAC ∧
  classify "memo.WaV" = KindWAV ∧ classify "song.ogg" = Unsupported ∧
  classify "mp3" = Unsupported ∧ classify "a.mp3.flac" = KindFLAC.
Proof. cbv zeta. repeat split; reflexivity. Qed.

(** Scenario 7: keep [title] and [artist] of four tags, save in place. *)
Example keep_title_and_artist :
  let run := remove_metadata "song.mp3" None (Some ["title"; "artist"])
               Ref.song_world in
  run.1 = Return tt ∧
  disk run.2 !! "song.mp3" =
    Some (Ref.mkFile (Some {[ "title" := "Blue"; "artist" := "Ann" ]}) "mpeg") ∧
  log run.2 = [(INFO, "Metadata removed from song.mp3 and saved to song.mp3")].
Proof. cbv zeta. repeat split; reflexivity. Qed.

(** Scenario 8: no keep-list, output to another path. *)
Example strip_to_other_file :
  let run := remove_metadata "track.flac" (Some "out.flac") None Ref.track_world in
  run.1 = Return tt ∧
  disk run.2 !! "out.flac" = Some (Ref.mkFile (Some ∅) "flac") ∧
  disk run.2 !! "track.flac" = Ref.track_disk !! "track.flac" ∧
  calls run.2 =
    [CallOpen "FLAC" "track.flac" None; CallDel "comment" None;
     CallSave (Ref.mkAudio ∅ "flac") "out.flac" None].
Proof. cbv zeta. repeat split; reflexivity. Qed.

(** A WAV file loses its ID3 block whatever the keep-list says; a WAV file
    without one is left alone. *)
Example wav_in_place :
  let run := remove_metadata "memo.wav" (Some "copy.wav") (Some ["TIT2"])
               Ref.memo_world in
  run.1 = Return tt ∧
  disk run.2 = {[ "memo.wav" := Ref.mkFile None "riff" ]} ∧
  (remove_metadata "bare.wav" None None Ref.bare_world).1 = Return tt ∧
  disk (remove_metadata "bare.wav" None None Ref.bare_world).2 = Ref.bare_disk.
Proof. cbv zeta. repeat split; reflexivity. Qed.

(** The exit codes of [main]. *)
Example exit_codes :
  (main (mkArgs "bare.mp3" None None None) Ref.bare_world).1 = 0%Z ∧
  (main (mkArgs "song.ogg" None None None) Ref.song_world).1 = 1%Z ∧
  (main (mkArgs "gone.flac" None None (Some "run.log")) Ref.song_world).1 = 1%Z ∧
  stdout (main (mkArgs "gone.flac" None None None) Ref.song_world).2 =
    ["Error: No such file: gone.flac"].
Proof. cbv zeta. repeat split; reflexivity. Qed.

(** A log file: the handler is added before the run; when the file cannot
    be opened the process ends with 1 and the audio file is not touched. *)
Example log_file_option :
  let logged := main (mkArgs "song.mp3" None None (Some "run.log")) Ref.song_world in
  let refused := main (mkArgs "song.mp3" None None (Some Ref.no_dir)) Ref.song_world in
  logged.1 = 0%Z ∧ handlers logged.2 = ["run.log"] ∧
  stdout logged.2 = ["Metadata removal complete."] ∧
  disk logged.2 !! "song.mp3" = Some (Ref.mkFile (Some ∅) "mpeg") ∧
  refused = (1%Z, Ref.song_world).
Proof. cbv zeta. repeat split; reflexivity. Qed.

(** Scenario 9: an empty keep-list removes every tag, as no keep-list does. *)
Example empty_keep_list :
  let run := remove_metadata "song.mp3" None (Some []) Ref.song_world in
  run.1 = Return tt ∧
  disk run.2 !! "song.mp3" = Some (Ref.mkFile (Some ∅) "mpeg") ∧
  length (del_tags (calls run.2)) = 4%nat ∧
  run = remove_metadata "song.mp3" None None Ref.song_world.
Proof. cbv zeta. repeat split; reflexivity. Qed.

(** A container that refuses to delete [title]: the run raises and the disk
    is the one it started with. *)
Example refused_deletion :
  Ref.aborted.1 = Raise Ref.read_only ∧
  disk Ref.aborted.2 = Ref.title_disk ∧
  calls Ref.aborted.2 =
    [CallOpen "MP3" "song.mp3" None; CallDel "title" (Some Ref.read_only)].
Proof. cbv zeta. repeat split; reflexivity. Qed.

End Scenarios.

(** ** The further properties at concrete inputs *)

Module MoreWitness.

#[local] Existing Instance Ref.dict.
#[local] Existing Instance Ref.env.

Lemma X1_witness :
  ("album" ∉ default [] (Some ["title"; "artist"])) ∧
  ∃ audio, tagged_file "song.mp3" (disk Ref.song_world) audio ∧ "album" ∈ keys audio.
Proof.
  apply (X1_kept_tags_never_deleted "song.mp3" None (Some ["title"; "artist"])
           Ref.song_world Ref.kept_run.1 Ref.kept_run.2
           [CallOpen "MP3" "song.mp3" None; CallDel "year" None;
            CallDel "album" None;
            CallSave
              (Ref.mkAudio {[ "title" := "Blue"; "artist" := "Ann" ]} "mpeg"
                 : @Audio Ref.dict)
              "song.mp3" None]
           "album" None).
  - apply surjective_pairing.
  - reflexivity.
  - do 2 apply list_elem_of_further. apply list_elem_of_here.
Defined.

Lemma X2_witness :
  (∀ audio, tagged_file "song.mp3" (disk Ref.song_world) audio →
     del_tags (calls Ref.kept_run.2)
       `prefix_of` tags_to_remove audio (Some ["title"; "artist"]) ∧
     ((Ref.kept_run.1 = Return tt
       ∨ ∃ c, c ∈ calls Ref.kept_run.2 ∧ is_write c = true) →
      del_tags (calls Ref.kept_run.2)
        = tags_to_remove audio (Some ["title"; "artist"]))) ∧
  ((∀ audio, ¬ tagged_file "song.mp3" (disk Ref.song_world) audio) →
   del_tags (calls Ref.kept_run.2) = []).
Proof.
  apply (X2_deletions_follow_the_list "song.mp3" None (Some ["title"; "artist"])
           Ref.song_world Ref.kept_run.1 Ref.kept_run.2 (calls Ref.kept_run.2)).
  - apply surjective_pairing.
  - reflexivity.
Defined.

Lemma X3_witness :
  ∃ evs, calls Ref.kept_run.2 = calls Ref.song_world ++ evs ∧
    ((Forall (λ c, is_write c = false) evs
      ∧ disk Ref.kept_run.2 = disk Ref.song_world) ∨
     (∃ pre c, evs = pre ++ [c] ∧ Forall (λ c, is_write c = false) pre ∧
        is_write c = true ∧
        disk Ref.kept_run.2 = write_effect c (disk Ref.song_world))).
Proof.
  apply (X3_one_write_at_the_end "song.mp3" None (Some ["title"; "artist"])
           Ref.song_world Ref.kept_run.1 Ref.kept_run.2).
  apply surjective_pairing.
Defined.


Lemma X6_witness :
  stdout Ref.kept_run.2 = stdout Ref.song_world ∧
  handlers Ref.kept_run.2 = handlers Ref.song_world ∧
  ∃ recs, log Ref.kept_run.2 = log Ref.song_world ++ recs ∧
    (Ref.kept_run.1 = Return tt ↔ Forall (λ rec, rec.1 ≠ ERROR) recs) ∧
    (∀ e, Ref.kept_run.1 = Raise e →
          last recs = Some (ERROR, outer_msg "song.mp3" e)).
Proof.
  apply (X6_errors_are_logged "song.mp3" None (Some ["title"; "artist"])
           Ref.song_world).
  apply surjective_pairing.
Defined.


Lemma X10_witness : classify "a.b" = Unsupported.
Proof.
  apply (proj2 (proj2 (proj2 (X10_classify_exact "a.b")))). cbn. lia.
Defined.

Lemma X11_witness :
  remove_metadata "song.mp3" None (Some ["artist"; "title"; "title"]) Ref.song_world =
  remove_metadata "song.mp3" None (Some ["title"; "artist"]) Ref.song_world.
Proof.
  apply (X11_keep_list_is_a_set "song.mp3" None
           (Some ["artist"; "title"; "title"]) (Some ["title"; "artist"])
           Ref.song_world).
  intros audio _ tag _. cbn [default from_option id].
  rewrite !elem_of_cons, !elem_of_nil. tauto.
Defined.

Lemma X12_witness :
  ∃ r w',
    remove_metadata "track.flac" (Some "out.flac") (Some ["comment"; "title"])
      Ref.track_world = (r, w') ∧
    disk w' =
      (save Ref.track_audio (default "track.flac" (Some "out.flac"))
         (disk Ref.track_world)).2 ∧
    calls w' = calls Ref.track_world ++
      [CallOpen (ctor_name "track.flac") "track.flac" None;
       CallSave Ref.track_audio (default "track.flac" (Some "out.flac")) (raised r)].
Proof.
  apply (X12_nothing_to_remove_still_saves "track.flac" (Some "out.flac")
           (Some ["comment"; "title"]) Ref.track_world Ref.track_audio).
  - right. split; reflexivity.
  - intros tag Hin. apply RefLaws.keys_lookup in Hin as [v Hv].
    destruct (decide (tag = "comment")) as [->|Hne]; [by left|].
    cbn in Hv. by rewrite lookup_singleton_ne in Hv.
Defined.

Lemma X13_witness :
  ∃ audio' r w',
    remove_metadata "song.mp3" None (Some ["title"; "artist"]) Ref.song_world
      = (r, w') ∧
    (∃ pre, calls w' = calls Ref.song_world ++ pre ++
              [CallSave audio' (default "song.mp3" None) (raised r)]) ∧
    ∀ input_file2 output_file2 w2 audio2,
      tagged_file input_file2 (disk w2) audio2 →
      (∀ tag, tag ∈ keys audio2 ↔ tag ∈ keys audio') →
      ∃ r2 w2',
        remove_metadata input_file2 output_file2 (Some ["title"; "artist"]) w2
          = (r2, w2') ∧
        disk w2' = (save audio2 (default input_file2 output_file2) (disk w2)).2 ∧
        calls w2' = calls w2 ++
          [CallOpen (ctor_name input_file2) input_file2 None;
           CallSave audio2 (default input_file2 output_file2) (raised r2)].
Proof.
  apply (X13_second_run_deletes_nothing "song.mp3" None (Some ["title"; "artist"])
           Ref.song_world Ref.song_audio).
  - exact RefLaws.dict_unique_keys.
  - exact RefLaws.dict_deletes_present.
  - left. split; reflexivity.
Defined.

End MoreWitness.

(** Runs over the library with faults. *)
Module QuirkWitness.

Lemma X5_witness :
  Quirk.refused_save.1 = Raise (Quirk.denied "song.mp3") ∧
  "song.mp3" = default "song.mp3" None ∧
  disk Quirk.refused_save.2 =
    (@save (Quirk.mutagen ["song.mp3"]) Quirk.stripped "song.mp3"
       (disk Quirk.locked_world)).2 ∧
  ∃ recs, log Quirk.refused_save.2 = log Quirk.locked_world ++ recs ++
            [save_error "song.mp3" (Quirk.denied "song.mp3");
             (ERROR, outer_msg "song.mp3" (Quirk.denied "song.mp3"))].
Proof.
  apply (@X5_save_failure (Quirk.mutagen ["song.mp3"]) "song.mp3" None None
           Quirk.locked_world Quirk.refused_save.1 Quirk.refused_save.2
           [CallOpen "MP3" "song.mp3" None; CallDel "year" None;
            CallDel "artist" None; CallDel "album" None; CallDel "title" None;
            CallSave Quirk.stripped "song.mp3" (Some (Quirk.denied "song.mp3"))]
           Quirk.stripped "song.mp3" (Quirk.denied "song.mp3")).
  - apply surjective_pairing.
  - reflexivity.
  - do 5 apply list_elem_of_further. apply list_elem_of_here.
Defined.

Lemma X8_witness :
  ∃ w',
    @remove_metadata (Quirk.mutagen ["memo.wav"]) "bare.wav" None None
      Quirk.wav_world = (Return tt, w') ∧
    disk w' = Quirk.wav_disk ∧
    log w' = log Quirk.wav_world ++ [wav_absent "bare.wav"; wav_done "bare.wav"] ∧
    calls w' = calls Quirk.wav_world ++
      [CallOpen "WAVE" "bare.wav" None; CallOpen "ID3" "bare.wav" None;
       @CallID3Delete (Quirk.mutagen ["memo.wav"]) "bare.wav"
         (Some (Ref.no_header "bare.wav"))].
Proof.
  apply (proj2 (@X8_wav_missing_header_is_success (Quirk.mutagen ["memo.wav"])
                  "bare.wav" None None Quirk.wav_world (Ref.mkAudio ∅ "riff")
                  eq_refl eq_refl)
           "bare.wav" (Ref.no_header "bare.wav") Quirk.wav_disk);
    reflexivity.
Defined.

Lemma X9_witness :
  (∃ w',
     @remove_metadata (Quirk.mutagen ["memo.wav"]) "broken.wav" None None
       Quirk.wav_world = (Raise (Quirk.denied "broken.wav"), w') ∧
     disk w' = disk Quirk.wav_world ∧
     log w' = log Quirk.wav_world ++
       [wav_error "broken.wav" (Quirk.denied "broken.wav");
        (ERROR, outer_msg "broken.wav" (Quirk.denied "broken.wav"))] ∧
     calls w' = calls Quirk.wav_world ++
       [CallOpen "WAVE" "broken.wav" None;
        CallOpen "ID3" "broken.wav" (Some (Quirk.denied "broken.wav"))]) ∧
  (∃ w',
     @remove_metadata (Quirk.mutagen ["memo.wav"]) "memo.wav" None None
       Quirk.wav_world = (Raise (Quirk.denied "memo.wav"), w') ∧
     disk w' = Quirk.wav_disk ∧
     log w' = log Quirk.wav_world ++
       [wav_error "memo.wav" (Quirk.denied "memo.wav");
        (ERROR, outer_msg "memo.wav" (Quirk.denied "memo.wav"))]).
Proof.
  split.
  - apply (proj1 (@X9_wav_failures (Quirk.mutagen ["memo.wav"])
                    "broken.wav" None None Quirk.wav_world (Ref.mkAudio ∅ "riff")
                    eq_refl eq_refl)
             (Quirk.denied "broken.wav")); reflexivity.
  - apply (proj2 (@X9_wav_failures (Quirk.mutagen ["memo.wav"])
                    "memo.wav" None None Quirk.wav_world
                    (Ref.mkAudio {[ "TIT2" := "memo" ]} "riff")
                    eq_refl eq_refl)
             "memo.wav" (Quirk.denied "memo.wav") Quirk.wav_disk); reflexivity.
Defined.

End QuirkWitness.
